(** * ludic: the element/component rendering core

    A shallow embedding of [ludic/base.py] (elements, the type
    registry, [Safe.parse], [to_html], [to_string], [__format__]) and of
    the equality of [ludic/styles/themes.py], together with the part of
    Python's [html] module that [default_html_formatter] calls. *)

From Stdlib Require Import ZArith NArith String Ascii List Bool Lia DecimalString.
From stdpp Require Import base option strings gmap.

Local Open Scope Z_scope.
Local Open Scope nat_scope.

#[local] Arguments String.append !s1 s2 : simpl nomatch.

(** ** Python's [html] module

    [base.py] imports [html] and calls [html.escape]; the inverse
    direction, [html.unescape], is embedded next to it.  A [str] is a
    [string]; the three tables [html.unescape] consults
    ([html.entities.html5], [_invalid_charrefs], [_invalid_codepoints])
    and the builtin [chr] are variables of the section. *)

Module html.

(** [s.replace(old, new)] for a one-character [old]. *)
Fixpoint replace (old : ascii) (new : string) (s : string) : string :=
  match s with
  | EmptyString => EmptyString
  | String a s' =>
      if Ascii.eqb a old then new +:+ replace old new s'
      else String a (replace old new s')
  end.

Definition quot : ascii := "034"%char.
Definition apos : ascii := "039"%char.

(** [html.escape(s, quote=True)]: five replacements, [&] first. *)
Definition escape (s : string) : string :=
  let s := replace "&" "&amp;" s in
  let s := replace "<" "&lt;" s in
  let s := replace ">" "&gt;" s in
  let s := replace quot "&quot;" s in
  let s := replace apos "&#x27;" s in
  s.

(** What [escape] does to one character. *)
Definition escape_char (a : ascii) : string :=
  if Ascii.eqb a "&" then "&amp;"
  else if Ascii.eqb a "<" then "&lt;"
  else if Ascii.eqb a ">" then "&gt;"
  else if Ascii.eqb a quot then "&quot;"
  else if Ascii.eqb a apos then "&#x27;"
  else String a EmptyString.

Definition in_range (lo hi : N) (a : ascii) : bool :=
  (lo <=? N_of_ascii a)%N && (N_of_ascii a <=? hi)%N.

Definition is_digit (a : ascii) : bool := in_range 48 57 a.

Definition is_hexdigit (a : ascii) : bool :=
  is_digit a || in_range 97 102 a || in_range 65 70 a.

(** The class [[^\t\n\f <&#;]] of the third alternative of [_charref]. *)
Definition is_name_char (a : ascii) : bool :=
  negb (existsb (N.eqb (N_of_ascii a)) [9; 10; 12; 32; 60; 38; 35; 59]%N).

(** A greedy run of at most [limit] characters satisfying [p], and
    what follows it. *)
Fixpoint span (p : ascii -> bool) (limit : nat) (s : string) : string * string :=
  match limit, s with
  | S k, String a s' =>
      if p a then let '(run, rest) := span p k s' in (String a run, rest)
      else (EmptyString, s)
  | _, _ => (EmptyString, s)
  end.

(** The [;?] that ends each alternative. *)
Definition semicolon (rest : string) : string :=
  match rest with
  | String ";" _ => ";"
  | _ => EmptyString
  end.

Definition nonempty (s : string) : bool :=
  match s with EmptyString => false | _ => true end.

(** Group 1 of
    [_charref = &(#[0-9]+;?|#[xX][0-9a-fA-F]+;?|[^\t\n\f <&#;]{1,32};?)]
    matched right after an ampersand, [r] being the text that
    follows the ampersand. *)
Definition charref_at (r : string) : option string :=
  match r with
  | String "#" r1 =>
      let '(digits, rest) := span is_digit (String.length r1) r1 in
      if nonempty digits then Some ("#" +:+ digits +:+ semicolon rest)
      else
        match r1 with
        | String x r2 =>
            if Ascii.eqb x "x" || Ascii.eqb x "X" then
              let '(hex, rest) := span is_hexdigit (String.length r2) r2 in
              if nonempty hex
              then Some ("#" +:+ String x hex +:+ semicolon rest)
              else None
            else None
        | EmptyString => None
        end
  | _ =>
      let '(name, rest) := span is_name_char 32 r in
      if nonempty name then Some (name +:+ semicolon rest) else None
  end.

(** [s.rstrip(';')]. *)
Fixpoint rstrip_semicolon (s : string) : string :=
  match s with
  | EmptyString => EmptyString
  | String a s' =>
      let t := rstrip_semicolon s' in
      if Ascii.eqb a ";" && negb (nonempty t) then EmptyString else String a t
  end.

Definition digit_value (a : ascii) : N :=
  let n := N_of_ascii a in
  if is_digit a then n - 48
  else if in_range 97 102 a then n - 87
  else n - 55.

(** [int(s, base)] on a string of digits of that base. *)
Fixpoint int_of (base : N) (acc : N) (s : string) : N :=
  match s with
  | EmptyString => acc
  | String a s' => int_of base (acc * base + digit_value a)%N s'
  end.

Section Unescape.

Variable html5 : gmap string string.
Variable _invalid_charrefs : gmap N string.
Variable _invalid_codepoints : gset N.
Variable chr : N -> string.

(** The [for x in range(len(s)-1, 1, -1)] loop of
    [_replace_charref], started at [x]. *)
Fixpoint longest_prefix (s : string) (x : nat) : option string :=
  match x with
  | S x' =>
      if (x <=? 1)%nat then None
      else
        match html5 !! String.substring 0 x s with
        | Some v => Some (v +:+ String.substring x (String.length s - x) s)
        | None => longest_prefix s x'
        end
  | O => None
  end.

(** [_replace_charref], applied to group 1 of a match. *)
Definition _replace_charref (s : string) : string :=
  match s with
  | String "#" t =>
      let num :=
        match t with
        | String x h =>
            if Ascii.eqb x "x" || Ascii.eqb x "X"
            then int_of 16 0 (rstrip_semicolon h)
            else int_of 10 0 (rstrip_semicolon t)
        | EmptyString => 0%N
        end in
      match _invalid_charrefs !! num with
      | Some r => r
      | None =>
          if ((55296 <=? num)%N && (num <=? 57343)%N) || (1114111 <? num)%N
          then chr 65533
          else if decide (num ∈ _invalid_codepoints) then EmptyString
          else chr num
      end
  | _ =>
      match html5 !! s with
      | Some v => v
      | None =>
          match longest_prefix s (String.length s - 1) with
          | Some r => r
          | None => "&" +:+ s
          end
      end
  end.

(** [_charref.sub(_replace_charref, s)]: a left-to-right scan that
    replaces each match and resumes after it; [skip] counts the
    characters of the current match still to be passed over. *)
Fixpoint sub_charref (skip : nat) (s : string) : string :=
  match s with
  | EmptyString => EmptyString
  | String a s' =>
      match skip with
      | S k => sub_charref k s'
      | O =>
          if Ascii.eqb a "&" then
            match charref_at s' with
            | Some g => _replace_charref g +:+ sub_charref (String.length g) s'
            | None => String a (sub_charref 0 s')
            end
          else String a (sub_charref 0 s')
      end
  end.

Fixpoint contains (a : ascii) (s : string) : bool :=
  match s with
  | EmptyString => false
  | String b s' => Ascii.eqb b a || contains a s'
  end.

(** [html.unescape(s)]. *)
Definition unescape (s : string) : string :=
  if negb (contains "&" s) then s else sub_charref 0 s.

End Unescape.

End html.


(** ** Exceptions and the two result types

    A call that may raise returns a [result]; a call that may also run
    forever takes fuel and returns an [M], whose [None] means that the
    fuel ran out before the call returned or raised. *)

Record exception := Exception { exc_type : string; exc_msg : string }.

Definition TypeError (msg : string) : exception := Exception "TypeError" msg.
Definition ImportWarning (msg : string) : exception := Exception "ImportWarning" msg.
Definition AttributeError (msg : string) : exception := Exception "AttributeError" msg.

Inductive result (A : Type) : Type :=
| Ok (a : A)
| Raise (e : exception).
Arguments Ok {A} a.
Arguments Raise {A} e.

Definition M (A : Type) : Type := option (result A).

Definition ret {A} (a : A) : M A := Some (Ok a).
Definition raise {A} (e : exception) : M A := Some (Raise e).
Definition out_of_fuel {A} : M A := None.
Definition lift {A} (r : result A) : M A := Some r.

Definition bind {A B} (c : M A) (k : A -> M B) : M B :=
  match c with
  | Some (Ok a) => k a
  | Some (Raise e) => Some (Raise e)
  | None => None
  end.

Notation "'let*' x ':=' c 'in' k" := (bind c (fun x => k))
  (at level 10, x pattern, c at level 100, k at level 200).

(** A generator expression consumed left to right: the first call that
    raises (or never returns) ends the iteration. *)
Fixpoint for_each {A B} (f : A -> M B) (l : list A) : M (list B) :=
  match l with
  | [] => ret []
  | a :: l' => let* b := f a in let* bs := for_each f l' in ret (b :: bs)
  end.

Definition newline : string := String "010"%char EmptyString.

(** [sep.join(parts)] is [String.concat sep parts]; [text * n]: *)
Fixpoint str_mul (text : string) (n : nat) : string :=
  match n with
  | O => EmptyString
  | S n' => text +:+ str_mul text n'
  end.

(** ** Elements ([ludic/base.py]) *)

Section Ludic.

(** Python's [float], and [Any] for the values of attributes. *)
Context {Float Any : Type}.

(** [PrimitiveChild = Safe | str | bool | int | float]. *)
Inductive PrimitiveChild : Type :=
| PSafe (s : string)
| PStr (s : string)
| PBool (b : bool)
| PInt (z : Z)
| PFloat (f : Float).

(** A subclass of [Element]: its [__name__] and the class attributes
    [to_html] reads ([html_name] may be missing). *)
Record Class : Type := {
  __name__ : string;
  html_name : option string;
  always_pair : bool
}.

(** An instance with its [_children] and [_attrs] (a [dict], in
    insertion order), and [AnyChild = PrimitiveChild | Element]. *)
Inductive Element : Type :=
| instance (type : Class) (_children : list AnyChild) (_attrs : list (string * Any))
with AnyChild : Type :=
| Primitive (p : PrimitiveChild)
| Node (e : Element).

Definition type_of (self : Element) : Class :=
  match self with instance c _ _ => c end.
Definition children (self : Element) : list AnyChild :=
  match self with instance _ ch _ => ch end.
Definition attrs (self : Element) : list (string * Any) :=
  match self with instance _ _ at_ => at_ end.

(** An item of the list [parse_elements] returns: a [str], or a
    [dict] with the keys [tag], [children] and [attrs]. *)
Inductive Parsed : Type :=
| ParsedText (s : string)
| ParsedElement (tag : string) (children : list AnyChild) (attrs : list (string * Any)).

(** What the code calls and [base.py] does not define: the builtins
    [str] (on a [float]) and [repr] (on a [str]), the functions
    imported from [.utils], and the [render] methods that subclasses
    define ([None] for a class that inherits [Element.render]). *)
Record Env : Type := {
  float_str : Float -> string;
  str_repr : string -> string;
  format_attribute : string -> Any -> string;
  format_html_attribute : string -> Any -> string;
  parse_elements : string -> result (list Parsed);
  validate_attributes : Class -> list (string * Any) -> result unit;
  validate_elements : Class -> list (string * Any) -> list AnyChild -> result unit;
  render_override : Class -> option (Element -> result Element)
}.

Variable env : Env.

(** [str(child)] for a primitive child. *)
Definition str_primitive (p : PrimitiveChild) : string :=
  match p with
  | PSafe s => s
  | PStr s => s
  | PBool b => if b then "True" else "False"
  | PInt z => NilZero.string_of_int (Z.to_int z)
  | PFloat f => float_str env f
  end.

(** [default_html_formatter]; [str(child)] of an element is
    [child.__str__()], that is [child.to_html()], here [to_html_]. *)
Definition default_html_formatter (to_html_ : Element -> M string)
    (child : AnyChild) : M string :=
  match child with
  | Primitive (PStr s) => ret (html.escape s)
  | Primitive p => ret (str_primitive p)
  | Node e => to_html_ e
  end.

Definition __repr__ (self : Element) : string :=
  "<" +:+ __name__ (type_of self) +:+ " />".

Definition _format_attributes (formatter : string -> Any -> string)
    (self : Element) : string :=
  String.concat " " (map (fun kv => formatter (fst kv) (snd kv)) (attrs self)).

Definition _format_children (formatter : AnyChild -> M string)
    (self : Element) : M string :=
  let* parts := for_each formatter (children self) in
  ret (String.concat "" parts).

Definition __len__ (self : Element) : nat := length (children self).

Definition is_primitive (child : AnyChild) : bool :=
  match child with Primitive _ => true | Node _ => false end.

Definition is_simple (self : Element) : bool :=
  match children self with
  | [child] => is_primitive child
  | _ => false
  end.

Definition has_attributes (self : Element) : bool :=
  match attrs self with [] => false | _ => true end.

(** The truth value of the tuple [self.children]. *)
Definition has_children (self : Element) : bool :=
  match children self with [] => false | _ => true end.

Fixpoint to_string (pretty : bool) (_level : nat) (self : Element) : string :=
  let indent := if pretty then str_mul "  " _level else "" in
  let name := __name__ (type_of self) in
  let element := indent +:+ "<" +:+ name in
  let element :=
    if (0 <? _level) && pretty then newline +:+ element else element in
  let element :=
    if has_attributes self
    then element +:+ " " +:+ _format_attributes (format_attribute env) self
    else element in
  if has_children self then
    let children_str :=
      String.concat ""
        (map (fun child =>
                match child with
                | Primitive p => str_primitive p
                | Node e => to_string pretty (S _level) e
                end)
             (children self)) in
    if pretty then
      if is_simple self then
        if has_attributes self then
          element +:+ ">" +:+ newline +:+ indent +:+ "  " +:+ children_str
            +:+ newline +:+ indent +:+ "</" +:+ name +:+ ">"
        else
          element +:+ ">" +:+ children_str +:+ "</" +:+ name +:+ ">"
      else
        element +:+ ">" +:+ indent +:+ "  " +:+ children_str
          +:+ newline +:+ indent +:+ "</" +:+ name +:+ ">"
    else
      element +:+ ">" +:+ children_str +:+ "</" +:+ name +:+ ">"
  else
    element +:+ " />".

(** [self.render()]: the method of the subclass when it defines
    one, [Element.render] (which returns [self]) otherwise. *)
Definition Element_render (self : Element) : result Element := Ok self.

Definition render (self : Element) : result Element :=
  match render_override env (type_of self) with
  | Some method => method self
  | None => Element_render self
  end.

(** The loop [while not hasattr(dom, "html_name"): dom = dom.render()];
    [fuel] bounds the number of [render] calls. *)
Fixpoint resolve (fuel : nat) (dom : Element) : M Element :=
  match html_name (type_of dom) with
  | Some _ => ret dom
  | None =>
      match fuel with
      | O => out_of_fuel
      | S fuel' =>
          match render dom with
          | Ok dom' => resolve fuel' dom'
          | Raise e => raise e
          end
      end
  end.

(** The attribute access [dom.html_name]. *)
Definition get_html_name (dom : Element) : M string :=
  match html_name (type_of dom) with
  | Some tag => ret tag
  | None =>
      raise (AttributeError
               ("'" +:+ __name__ (type_of dom)
                    +:+ "' object has no attribute 'html_name'"))
  end.

(** [to_html], after the loop: the tag of [dom]; [to_html_] serializes
    the children that are elements. *)
Definition serialize (to_html_ : Element -> M string) (dom : Element) : M string :=
  let* tag := get_html_name dom in
  let element_tag := "<" +:+ tag in
  let element_tag :=
    if has_attributes dom
    then element_tag +:+ " " +:+ _format_attributes (format_html_attribute env) dom
    else element_tag in
  if has_children dom || always_pair (type_of dom) then
    let* children_str := _format_children (default_html_formatter to_html_) dom in
    ret (element_tag +:+ ">" +:+ children_str +:+ "</" +:+ tag +:+ ">")
  else
    ret (element_tag +:+ " />").

(** [Element.to_html]; [fuel] bounds the [render] calls of the loop
    and the depth of the calls on children. *)
Fixpoint to_html (fuel : nat) (self : Element) : M string :=
  match fuel with
  | O => out_of_fuel
  | S fuel' =>
      let* dom := resolve fuel' self in
      serialize (to_html fuel') dom
  end.

Definition __str__ (fuel : nat) (self : Element) : M string := to_html fuel self.

(** The check of [__format__] on the children, in order. *)
Fixpoint check_textual (self : Element) (rest : list AnyChild) : result unit :=
  match rest with
  | [] => Ok tt
  | Primitive _ :: rest' => check_textual self rest'
  | Node e :: _ =>
      Raise (TypeError
               ("Only elements with textual children can be used "
                  +:+ "within an f-string, " +:+ __repr__ self
                  +:+ " contains " +:+ __repr__ e +:+ "."))
  end.

Definition __format__ (self : Element) (_spec : string) : result string :=
  match check_textual self (children self) with
  | Raise e => Raise e
  | Ok _ => Ok (to_string false 0 self)
  end.

(** *** The registry, [Safe.parse] and the constructor *)

(** The [for child in parsed_children] loop of [Safe.parse];
    [construct] is the call of [element_type] on the children and
    attributes of the item. *)
Fixpoint parse_loop
    (construct : Class -> list AnyChild -> list (string * Any) -> M Element)
    (_ELEMENT_REGISTRY : gmap string Class)
    (parsed_children : list Parsed) (new_children : list AnyChild)
    : M (list AnyChild) :=
  match parsed_children with
  | [] => ret new_children
  | ParsedText s :: rest =>
      parse_loop construct _ELEMENT_REGISTRY rest
                 (new_children ++ [Primitive (PSafe s)])
  | ParsedElement tag children_ attrs_ :: rest =>
      match _ELEMENT_REGISTRY !! tag with
      | None =>
          raise (TypeError
                   ("Element or component " +:+ str_repr env tag
                      +:+ " not found, " +:+ "maybe you forgot to import it?"))
      | Some element_type =>
          let* element := construct element_type children_ attrs_ in
          parse_loop construct _ELEMENT_REGISTRY rest (new_children ++ [Node element])
      end
  end.

Definition Safe_parse
    (construct : Class -> list AnyChild -> list (string * Any) -> M Element)
    (_ELEMENT_REGISTRY : gmap string Class) (string_ : string)
    : M (list AnyChild) :=
  let* parsed_children := lift (parse_elements env string_) in
  parse_loop construct _ELEMENT_REGISTRY parsed_children [].

(** [Element.__init__], returning the initialised instance; the
    classes of the registry are constructed by it too, and [fuel]
    bounds the nesting of these calls. *)
Fixpoint __init__ (fuel : nat) (_ELEMENT_REGISTRY : gmap string Class)
    (cls : Class) (children_ : list AnyChild) (attributes : list (string * Any))
    : M Element :=
  match fuel with
  | O => out_of_fuel
  | S fuel' =>
      let* _ := lift (validate_attributes env cls attributes) in
      match children_ with
      | [Primitive (PSafe s)] =>
          let* new_children :=
            Safe_parse (__init__ fuel' _ELEMENT_REGISTRY) _ELEMENT_REGISTRY s in
          let* _ := lift (validate_elements env cls attributes new_children) in
          ret (instance cls new_children attributes)
      | _ =>
          let* _ := lift (validate_elements env cls attributes children_) in
          ret (instance cls children_ attributes)
      end
  end.

(** [Element.__init_subclass__], run when the class [cls] is
    declared: the outcome and the registry it leaves. *)
Definition __init_subclass__ (_ELEMENT_REGISTRY : gmap string Class) (cls : Class)
    : result unit * gmap string Class :=
  match _ELEMENT_REGISTRY !! __name__ cls with
  | Some _ =>
      (Raise (ImportWarning
                ("Element or component with the name " +:+ str_repr env (__name__ cls)
                   +:+ " is already used. "
                   +:+ "This means that parsing PyMX elements might not work correctly when "
                   +:+ "rendered.")),
       _ELEMENT_REGISTRY)
  | None => (Ok tt, <[__name__ cls := cls]> _ELEMENT_REGISTRY)
  end.

End Ludic.

Arguments PrimitiveChild : clear implicits.
Arguments Element : clear implicits.
Arguments AnyChild : clear implicits.
Arguments Parsed : clear implicits.
Arguments Env : clear implicits.

(** *** Notions used to state the properties of the serializers *)

Section Layout.

Context {Float Any : Type}.
Variable env : Env Float Any.

(** The opening of a tag up to, not including, its [>] or [ />]:
    the name and, when there are attributes, a space and the
    attributes joined by spaces. *)
Definition tag_start (formatter : string -> Any -> string) (name : string)
    (self : Element Float Any) : string :=
  if has_attributes self
  then "<" +:+ name +:+ " " +:+ _format_attributes formatter self
  else "<" +:+ name.

(** The indentation of [to_string] at a level, and the line break
    that precedes every element below the top one. *)
Definition indent_at (_level : nat) : string := str_mul "  " _level.

Definition line_break (_level : nat) : string :=
  if 0 <? _level then newline else "".

(** [k] successive calls of [render], the first on [n]. *)
Fixpoint render_steps (k : nat) (n : Element Float Any) : result (Element Float Any) :=
  match k with
  | O => Ok n
  | S k' =>
      match render env n with
      | Ok n' => render_steps k' n'
      | Raise e => Raise e
      end
  end.

(** The text [to_string] has built, in pretty mode, when it reaches
    the children. *)
Definition pretty_head (_level : nat) (self : Element Float Any) : string :=
  line_break _level +:+ indent_at _level
    +:+ tag_start (format_attribute env) (__name__ (type_of self)) self.

(** What [to_string] writes for a child, in pretty mode, of a node
    at [_level]. *)
Definition pretty_child (_level : nat) (child : AnyChild Float Any) : string :=
  match child with
  | Primitive p => str_primitive env p
  | Node e => to_string env true (S _level) e
  end.

(** The exception of [Safe.parse] for a tag that is not registered. *)
Definition unknown_tag (tag : string) : exception :=
  TypeError ("Element or component " +:+ str_repr env tag
               +:+ " not found, maybe you forgot to import it?").

(** The exception of [__init_subclass__] for a name already used. *)
Definition name_already_used (name : string) : exception :=
  ImportWarning
    ("Element or component with the name " +:+ str_repr env name
       +:+ " is already used. This means that parsing PyMX elements "
       +:+ "might not work correctly when rendered.").

(** The exception of [__format__] for the child [e] of [self]. *)
Definition not_textual (self e : Element Float Any) : exception :=
  TypeError ("Only elements with textual children can be used within an f-string, "
               +:+ __repr__ self +:+ " contains " +:+ __repr__ e +:+ ".").

(** An item of a parse that the loop of [Safe.parse] passes: a text,
    or a registered tag whose constructor returns. *)
Definition passes
    (construct : @Class -> list (AnyChild Float Any) -> list (string * Any)
                 -> M (Element Float Any))
    (registry : gmap string Class) (item : Parsed Float Any) : Prop :=
  match item with
  | ParsedText _ => True
  | ParsedElement tag children_ attrs_ =>
      exists element_type element,
        registry !! tag = Some element_type
        /\ construct element_type children_ attrs_ = ret element
  end.

End Layout.

(** [s.split("\n")]: the lines of a text. *)
Fixpoint lines_from (current : string) (s : string) : list string :=
  match s with
  | EmptyString => [current]
  | String a s' =>
      if Ascii.eqb a "010" then current :: lines_from "" s'
      else lines_from (current +:+ String a "") s'
  end.

Definition lines (s : string) : list string := lines_from "" s.

(** *** The rest of [Element]: [text], [attrs_for], and measures of a tree *)

Section Tree.

Context {Float Any : Type}.
Variable env : Env Float Any.

(** The property [Element.text]. *)
Fixpoint text (self : Element Float Any) : string :=
  match self with
  | instance _ children_ _ =>
      String.concat ""
        (map (fun child =>
                match child with
                | Node e => text e
                | Primitive p => str_primitive env p
                end)
             children_)
  end.

(** [Element.attrs_for]; [get_element_attributes] is imported from
    [.utils] and gives the attribute names a class declares. *)
Definition attrs_for (get_element_attributes : @Class -> gset string)
    (self : Element Float Any) (cls : @Class) : list (string * Any) :=
  List.filter (fun kv => bool_decide (fst kv ∈ get_element_attributes cls))
              (attrs self).

(** The primitive children of a tree, left to right. *)
Fixpoint leaves (self : Element Float Any) : list (PrimitiveChild Float) :=
  match self with
  | instance _ children_ _ =>
      List.concat
        (map (fun child =>
                match child with
                | Node e => leaves e
                | Primitive p => [p]
                end)
             children_)
  end.

(** [to_html] on [n] ends with the outcome [r] (a string or an
    exception). *)
Definition html_of (n : Element Float Any) (r : result string) : Prop :=
  exists fuel, to_html env fuel n = Some r.

(** The child that [Safe.parse] makes of an item of the parse. *)
Definition parsed_as
    (construct : @Class -> list (AnyChild Float Any) -> list (string * Any)
                 -> M (Element Float Any))
    (registry : gmap string (@Class))
    (item : Parsed Float Any) (child : AnyChild Float Any) : Prop :=
  match item, child with
  | ParsedText s, Primitive (PSafe s') => s' = s
  | ParsedElement tag children_ attrs_, Node e =>
      exists element_type,
        registry !! tag = Some element_type
        /\ construct element_type children_ attrs_ = ret e
  | _, _ => False
  end.

(** The test [len(children) == 1 and isinstance(children[0], Safe)]
    of the constructor, with the string when it holds. *)
Definition sole_safe (children_ : list (AnyChild Float Any)) : option string :=
  match children_ with
  | [Primitive (PSafe s)] => Some s
  | _ => None
  end.

(** An item of a parse that is a text or a tag of the registry. *)
Definition registered (registry : gmap string (@Class))
    (item : Parsed Float Any) : Prop :=
  match item with
  | ParsedText _ => True
  | ParsedElement tag _ _ => exists element_type, registry !! tag = Some element_type
  end.

(** Every key of the registry is the name of the class it maps to. *)
Definition well_named (registry : gmap string (@Class)) : Prop :=
  forall key cls, registry !! key = Some cls -> __name__ cls = key.

End Tree.

(** ** Themes ([ludic/styles/themes.py]) *)

Module themes.

(** [Color] is a [str]. *)
Record Colors : Type := {
  primary : string; secondary : string; success : string; info : string;
  warning : string; danger : string;
  dark : string; light : string; white : string; black : string
}.

Record FontSizes : Type := { small : Z; medium : Z; large : Z }.

Record FontFamilies : Type := {
  headers : string; paragraphs : string; monospace : string
}.

Record Fonts : Type := { families : FontFamilies; sizes : FontSizes }.

(** The two concrete theme classes; [Theme] itself is abstract. *)
Inductive ThemeClass : Type := DarkTheme | LightTheme.

Record Theme : Type := {
  __class__ : ThemeClass;
  fonts : Fonts;
  colors : Colors;
  name : string
}.

(** The right operand of a comparison: a theme or anything else. *)
Inductive object : Type :=
| a_theme (t : Theme)
| not_a_theme.

(** [Theme.__eq__], lines 94 and 95. *)
Definition Theme___eq__ (self : Theme) (other : object) : bool :=
  match other with
  | a_theme o => String.eqb (name self) (name o)
  | not_a_theme => false
  end.

(** The [__eq__] that [@dataclass] writes for [Colors], [FontSizes],
    [FontFamilies] and [Fonts]: field by field. *)
Definition Colors___eq__ (a b : Colors) : bool :=
  String.eqb (primary a) (primary b) && String.eqb (secondary a) (secondary b)
  && String.eqb (success a) (success b) && String.eqb (info a) (info b)
  && String.eqb (warning a) (warning b) && String.eqb (danger a) (danger b)
  && String.eqb (dark a) (dark b) && String.eqb (light a) (light b)
  && String.eqb (white a) (white b) && String.eqb (black a) (black b).

Definition FontSizes___eq__ (a b : FontSizes) : bool :=
  Z.eqb (small a) (small b) && Z.eqb (medium a) (medium b)
  && Z.eqb (large a) (large b).

Definition FontFamilies___eq__ (a b : FontFamilies) : bool :=
  String.eqb (headers a) (headers b) && String.eqb (paragraphs a) (paragraphs b)
  && String.eqb (monospace a) (monospace b).

Definition Fonts___eq__ (a b : Fonts) : bool :=
  FontFamilies___eq__ (families a) (families b)
  && FontSizes___eq__ (sizes a) (sizes b).

Definition same_class (a b : ThemeClass) : bool :=
  match a, b with
  | DarkTheme, DarkTheme | LightTheme, LightTheme => true
  | _, _ => false
  end.

(** [DarkTheme] and [LightTheme] are declared under [@dataclass]
    (lines 108 and 115) and their bodies define no [__eq__], so the
    decorator writes one into each of them: equal fields when the
    classes are the same, [NotImplemented] (here [None]) otherwise.
    It shadows the [__eq__] inherited from [Theme]. *)
Definition dataclass___eq__ (self : Theme) (other : object) : option bool :=
  match other with
  | a_theme o =>
      if same_class (__class__ o) (__class__ self)
      then Some (Fonts___eq__ (fonts self) (fonts o)
                 && Colors___eq__ (colors self) (colors o)
                 && String.eqb (name self) (name o))
      else None
  | not_a_theme => None
  end.

(** [t1 == t2] on two theme instances: the [__eq__] of the class of
    [t1], then the reflected one, then identity, which is false for
    two instances of different classes. *)
Definition eq_op (t1 t2 : Theme) : bool :=
  match dataclass___eq__ t1 (a_theme t2) with
  | Some b => b
  | None =>
      match dataclass___eq__ t2 (a_theme t1) with
      | Some b => b
      | None => false
      end
  end.

(** The defaults of the fields. *)
Definition default_Colors : Colors :=
  {| primary := "#0d6efd"; secondary := "#6c757d"; success := "#198754";
     info := "#0dcaf0"; warning := "#ffc107"; danger := "#dc3545";
     dark := "#313539"; light := "#f8f9fa"; white := "#fff"; black := "#222" |}.

Definition default_Fonts : Fonts :=
  {| families := {| headers := "serif"; paragraphs := "sans-serif";
                    monospace := "monospace" |};
     sizes := {| small := 12; medium := 14; large := 20 |} |}.

(** [DarkTheme(colors=colors)]. *)
Definition new_DarkTheme (colors_ : Colors) : Theme :=
  {| __class__ := DarkTheme; fonts := default_Fonts; colors := colors_;
     name := "dark" |}.

End themes.

(** ** A small program to run the definitions on

    Tables with the entries of Python's that [html.escape] can lead
    to, two element classes, the component [Form] of
    [catalog/forms.py] (its [render] returns a [form] with the same
    children and attributes), a class [Loop] that declares neither
    [html_name] nor [render], and collaborators that accept
    everything. *)

Module demo.

Definition html5 : gmap string string :=
  list_to_map [("amp;", "&"); ("lt;", "<"); ("gt;", ">");
               ("quot;", String html.quot ""); ("amp", "&"); ("lt", "<");
               ("gt", ">"); ("quot", String html.quot "")]%string.

Definition _invalid_charrefs : gmap N string :=
  list_to_map [(0, "?"); (13, String "013"%char "")]%N.

Definition _invalid_codepoints : gset N := list_to_set [1; 2; 3; 11]%N.

Definition chr (n : N) : string := String (ascii_of_N n) "".

Definition div : @Class := {| __name__ := "div"; html_name := Some "div"; always_pair := true |}.
Definition br : @Class := {| __name__ := "br"; html_name := Some "br"; always_pair := false |}.
Definition b : @Class := {| __name__ := "b"; html_name := Some "b"; always_pair := false |}.
Definition form : @Class := {| __name__ := "form"; html_name := Some "form"; always_pair := true |}.
Definition Form : @Class := {| __name__ := "Form"; html_name := None; always_pair := false |}.
Definition Loop : @Class := {| __name__ := "Loop"; html_name := None; always_pair := false |}.

Definition quoted (v : string) : string :=
  String html.quot "" +:+ v +:+ String html.quot "".

Definition env : Env unit string := {|
  float_str := fun _ => "0.0";
  str_repr := fun s => "'" +:+ s +:+ "'";
  format_attribute := fun key value => key +:+ "=" +:+ quoted value;
  format_html_attribute := fun key value => key +:+ "=" +:+ quoted value;
  parse_elements := fun s =>
    if String.eqb s "<Bogus>x</Bogus>"
    then Ok [ParsedElement "Bogus" [Primitive (PSafe "x")] []]
    else if String.eqb s "Hello, how <b>are you</b>?"
    then Ok [ParsedText "Hello, how ";
             ParsedElement "b" [Primitive (PSafe "are you")] [];
             ParsedText "?"]
    else Ok [ParsedText s];
  validate_attributes := fun _ _ => Ok tt;
  validate_elements := fun _ _ _ => Ok tt;
  render_override := fun cls =>
    if String.eqb (__name__ cls) "Form"
    then Some (fun self => Ok (instance form (children self) (attrs self)))
    else None
|}.

Definition registry : gmap string Class :=
  list_to_map [("div", div); ("br", br); ("b", b); ("form", form); ("Form", Form)].

Definition loop : Element unit string := instance Loop [] [].

Definition two_texts : Element unit string :=
  instance div [Primitive (PStr "a"); Primitive (PStr "b")] [].

End demo.

(** A second program: the one above with a component in the manner
    of [Anchor] of [catalog/headers.py], whose [render] reads the
    attribute [target] and raises [KeyError] when it is missing, and
    the attribute names that two classes declare. *)

Module sample.

Definition a : @Class := {| __name__ := "a"; html_name := Some "a"; always_pair := false |}.
Definition Anchor : @Class := {| __name__ := "Anchor"; html_name := None; always_pair := false |}.

Fixpoint lookup_attr (key : string) (attrs_ : list (string * string)) : option string :=
  match attrs_ with
  | [] => None
  | (k, v) :: rest => if String.eqb k key then Some v else lookup_attr key rest
  end.

Definition Anchor_render (self : Element unit string) : result (Element unit string) :=
  match lookup_attr "target" (attrs self) with
  | None => Raise (Exception "KeyError" "'target'")
  | Some target =>
      Ok (instance a
            [match children self with
             | child :: _ => child
             | [] => Primitive (PStr "#")
             end]
            [("href", "#" +:+ target)])
  end.

Definition env : Env unit string := {|
  float_str := float_str demo.env;
  str_repr := str_repr demo.env;
  format_attribute := format_attribute demo.env;
  format_html_attribute := format_html_attribute demo.env;
  parse_elements := parse_elements demo.env;
  validate_attributes := validate_attributes demo.env;
  validate_elements := validate_elements demo.env;
  render_override := fun cls =>
    if String.eqb (__name__ cls) "Anchor" then Some Anchor_render
    else render_override demo.env cls
|}.

Definition get_element_attributes (cls : @Class) : gset string :=
  if String.eqb (__name__ cls) "a" then {["href"; "id"]}
  else {["id"]}.

Definition page : Element unit string :=
  instance demo.div
    [Primitive (PStr "1 < 2");
     Node (instance demo.b [Primitive (PSafe "x"); Primitive (PInt 7)] []);
     Node (instance demo.br [] [])]
    [("id", "p")].

End sample.

(** A third program: the first one with a [validate_elements] that
    accepts no children in a [br], and a string whose parse has a
    [br] with a child before a tag that is not registered. *)

Module strict.

Definition bad_children : exception := Exception "ValueError" "bad children".

Definition br_then_Bogus : string := "<br>x</br><Bogus>y</Bogus>".

Definition env : Env unit string := {|
  float_str := float_str demo.env;
  str_repr := str_repr demo.env;
  format_attribute := format_attribute demo.env;
  format_html_attribute := format_html_attribute demo.env;
  parse_elements := fun s =>
    if String.eqb s br_then_Bogus
    then Ok [ParsedElement "br" [Primitive (PStr "x")] [];
             ParsedElement "Bogus" [Primitive (PStr "y")] []]
    else parse_elements demo.env s;
  validate_attributes := validate_attributes demo.env;
  validate_elements := fun cls _ children_ =>
    match children_ with
    | _ :: _ => if String.eqb (__name__ cls) "br" then Raise bad_children else Ok tt
    | [] => Ok tt
    end;
  render_override := render_override demo.env
|}.

End strict.

(** * Properties *)

Lemma append_assoc (s t u : string) : (s +:+ t) +:+ u = s +:+ t +:+ u.
Proof. induction s as [|a s IH]; simpl; [reflexivity|now rewrite IH]. Qed.

Lemma append_nil_r (s : string) : s +:+ "" = s.
Proof. induction s as [|a s IH]; simpl; [reflexivity|now rewrite IH]. Qed.

(** ** [html.unescape] undoes [html.escape] *)

Section EscapeRoundTrip.

Variable html5 : gmap string string.
Variable _invalid_charrefs : gmap N string.
Variable _invalid_codepoints : gset N.
Variable chr : N -> string.

Hypothesis html5_amp : html5 !! "amp;" = Some "&".
Hypothesis html5_lt : html5 !! "lt;" = Some "<".
Hypothesis html5_gt : html5 !! "gt;" = Some ">".
Hypothesis html5_quot : html5 !! "quot;" = Some (String html.quot "").
Hypothesis apos_valid_charref : _invalid_charrefs !! 39%N = None.
Hypothesis apos_valid_codepoint : 39%N ∉ _invalid_codepoints.
Hypothesis chr_apos : chr 39 = String html.apos "".

Lemma replace_app old new s t :
  html.replace old new (s +:+ t) = html.replace old new s +:+ html.replace old new t.
Proof.
  induction s as [|a s IH]; simpl; [reflexivity|].
  rewrite IH. destruct (Ascii.eqb a old); simpl; [|reflexivity].
  now rewrite append_assoc.
Qed.

Lemma escape_cons a s :
  html.escape (String a s) = html.escape_char a +:+ html.escape s.
Proof.
  unfold html.escape, html.escape_char.
  change (String a s) with (String a "" +:+ s).
  rewrite !replace_app.
  f_equal.
  destruct (Ascii.eqb a "&") eqn:E1; simpl; rewrite ?E1; [reflexivity|].
  destruct (Ascii.eqb a "<") eqn:E2; simpl; rewrite ?E2; [reflexivity|].
  destruct (Ascii.eqb a ">") eqn:E3; simpl; rewrite ?E3; [reflexivity|].
  destruct (Ascii.eqb a html.quot) eqn:E4; simpl; rewrite ?E4; [reflexivity|].
  destruct (Ascii.eqb a html.apos) eqn:E5; simpl; rewrite ?E5; reflexivity.
Qed.

Local Abbreviation sub := (html.sub_charref html5 _invalid_charrefs _invalid_codepoints chr).
Local Abbreviation repl := (html._replace_charref html5 _invalid_charrefs _invalid_codepoints chr).

(** The references [html.escape] writes, as [_charref] matches them
    whatever follows. *)
Lemma charref_at_amp t : html.charref_at ("amp;" +:+ t) = Some "amp;".
Proof. reflexivity. Qed.
Lemma charref_at_lt t : html.charref_at ("lt;" +:+ t) = Some "lt;".
Proof. reflexivity. Qed.
Lemma charref_at_gt t : html.charref_at ("gt;" +:+ t) = Some "gt;".
Proof. reflexivity. Qed.
Lemma charref_at_quot t : html.charref_at ("quot;" +:+ t) = Some "quot;".
Proof. reflexivity. Qed.
Lemma charref_at_apos t : html.charref_at ("#x27;" +:+ t) = Some "#x27;".
Proof. reflexivity. Qed.

Lemma replace_named s v : html5 !! s = Some v ->
  match s with String "#" _ => False | _ => True end -> repl s = v.
Proof.
  intros Hs Hname. unfold html._replace_charref.
  rewrite Hs.
  destruct s as [|[[] [] [] [] [] [] [] []] s']; try reflexivity; contradiction.
Qed.

Lemma replace_apos : repl "#x27;" = String html.apos "".
Proof.
  unfold html._replace_charref.
  change (html.int_of 16 0 (html.rstrip_semicolon "27;")) with 39%N.
  cbv beta iota zeta.
  change (Ascii.eqb "x" "x" || Ascii.eqb "x" "X") with true.
  cbv beta iota.
  rewrite apos_valid_charref.
  change ((55296 <=? 39)%N && (39 <=? 57343)%N || (1114111 <? 39)%N) with false.
  cbv beta iota.
  destruct (decide (39%N ∈ _invalid_codepoints)) as [Hin|_]; [contradiction|].
  exact chr_apos.
Qed.

Lemma sub_charref_match g r :
  html.charref_at r = Some g ->
  sub 0 (String "&" r) = repl g +:+ sub (String.length g) r.
Proof. intros H. simpl. rewrite H. reflexivity. Qed.

Lemma sub_charref_skip p t : sub (String.length p) (p +:+ t) = sub 0 t.
Proof. induction p as [|a p IH]; [reflexivity|exact IH]. Qed.

Lemma sub_charref_reference g v t :
  html.charref_at (g +:+ t) = Some g -> repl g = v ->
  sub 0 (String "&" (g +:+ t)) = v +:+ sub 0 t.
Proof.
  intros Hat Hrepl.
  rewrite (sub_charref_match _ _ Hat), Hrepl, sub_charref_skip. reflexivity.
Qed.

Lemma sub_charref_escape_char a t :
  sub 0 (html.escape_char a +:+ t) = String a (sub 0 t).
Proof.
  unfold html.escape_char.
  destruct (Ascii.eqb a "&") eqn:E1.
  { apply Ascii.eqb_eq in E1; subst a.
    apply (sub_charref_reference "amp;" "&" t (charref_at_amp t)).
    now apply replace_named. }
  destruct (Ascii.eqb a "<") eqn:E2.
  { apply Ascii.eqb_eq in E2; subst a.
    apply (sub_charref_reference "lt;" "<" t (charref_at_lt t)).
    now apply replace_named. }
  destruct (Ascii.eqb a ">") eqn:E3.
  { apply Ascii.eqb_eq in E3; subst a.
    apply (sub_charref_reference "gt;" ">" t (charref_at_gt t)).
    now apply replace_named. }
  destruct (Ascii.eqb a html.quot) eqn:E4.
  { apply Ascii.eqb_eq in E4; subst a.
    apply (sub_charref_reference "quot;" (String html.quot "") t (charref_at_quot t)).
    now apply replace_named. }
  destruct (Ascii.eqb a html.apos) eqn:E5.
  { apply Ascii.eqb_eq in E5; subst a.
    apply (sub_charref_reference "#x27;" (String html.apos "") t (charref_at_apos t)).
    exact replace_apos. }
  simpl. rewrite E1. reflexivity.
Qed.

Lemma sub_charref_escape s : sub 0 (html.escape s) = s.
Proof.
  induction s as [|a s IH]; [reflexivity|].
  rewrite escape_cons, sub_charref_escape_char, IH. reflexivity.
Qed.

Lemma sub_charref_no_ampersand t :
  html.contains "&" t = false -> sub 0 t = t.
Proof.
  induction t as [|a t IH]; simpl; [reflexivity|].
  intros H. apply orb_false_iff in H as [Ha Ht].
  simpl. rewrite Ha. f_equal. now apply IH.
Qed.

Lemma unescape_escape s :
  html.unescape html5 _invalid_charrefs _invalid_codepoints chr (html.escape s) = s.
Proof.
  unfold html.unescape.
  destruct (html.contains "&" (html.escape s)) eqn:E; simpl.
  - apply sub_charref_escape.
  - rewrite <- (sub_charref_no_ampersand _ E). apply sub_charref_escape.
Qed.

End EscapeRoundTrip.

(** ** The compact serializer, [to_html] *)

Section ToHtml.

Context {Float Any : Type}.
Variable env : Env Float Any.

Implicit Types (n dom : Element Float Any) (type : @Class).

Lemma resolve_concrete fuel n tag :
  html_name (type_of n) = Some tag -> resolve env fuel n = ret n.
Proof. intros H. destruct fuel; simpl; rewrite H; reflexivity. Qed.

Lemma to_html_concrete fuel n tag :
  html_name (type_of n) = Some tag ->
  to_html env (S fuel) n = serialize env (to_html env fuel) n.
Proof. intros H. simpl. rewrite (resolve_concrete _ _ _ H). reflexivity. Qed.

(** The output of [serialize] on a node with children, in terms of
    what [_format_children] returns. *)
Lemma serialize_with_children to_html_ dom tag text :
  html_name (type_of dom) = Some tag ->
  has_children dom = true ->
  _format_children (default_html_formatter env to_html_) dom = ret text ->
  serialize env to_html_ dom
  = ret (tag_start (format_html_attribute env) tag dom
           +:+ ">" +:+ text +:+ "</" +:+ tag +:+ ">").
Proof.
  intros Htag Hch Htext. unfold serialize, get_html_name, tag_start.
  rewrite Htag, Hch, Htext. simpl.
  destruct (has_attributes dom); simpl; rewrite ?append_assoc; reflexivity.
Qed.

(** C2. A concrete node without children serializes as the
    self-closing [<tag ... />] when [always_pair] is false and as the
    pair [<tag ...></tag>] when it is true, the dots standing for the
    formatted attributes, if any. *)
Theorem to_html_childless fuel type attrs_ tag :
  html_name type = Some tag ->
  let dom := instance type [] attrs_ in
  to_html env (S fuel) dom
  = ret (if always_pair type
         then tag_start (format_html_attribute env) tag dom
                +:+ ">" +:+ "</" +:+ tag +:+ ">"
         else tag_start (format_html_attribute env) tag dom +:+ " />").
Proof.
  intros Htag dom.
  rewrite (to_html_concrete fuel dom tag Htag).
  unfold serialize, get_html_name, tag_start. simpl. rewrite Htag. simpl.
  destruct (always_pair type); destruct attrs_ as [|kv attrs_]; simpl;
    rewrite ?append_assoc; reflexivity.
Qed.

(** C3. On a node that carries a tag name the resolution is a no-op:
    [Element.render] returns the node itself, so does [render] for
    every class that inherits it; the loop of [to_html] returns the
    node without any [render] call (with no fuel at all), and
    [to_html] serializes the node itself. *)
Theorem resolve_concrete_noop n tag :
  html_name (type_of n) = Some tag ->
  Element_render n = Ok n
  /\ (render_override env (type_of n) = None -> render env n = Ok n)
  /\ resolve env 0 n = ret n
  /\ forall fuel,
       resolve env fuel n = ret n
       /\ to_html env (S fuel) n = serialize env (to_html env fuel) n.
Proof.
  intros Htag. split; [reflexivity|]. split.
  - intros Hnone. unfold render. rewrite Hnone. reflexivity.
  - split; [exact (resolve_concrete 0 n tag Htag)|].
    intros fuel. split.
    + exact (resolve_concrete fuel n tag Htag).
    + exact (to_html_concrete fuel n tag Htag).
Qed.

Section TextChild.

Variable html5 : gmap string string.
Variable _invalid_charrefs : gmap N string.
Variable _invalid_codepoints : gset N.
Variable chr : N -> string.

Hypothesis html5_amp : html5 !! "amp;" = Some "&".
Hypothesis html5_lt : html5 !! "lt;" = Some "<".
Hypothesis html5_gt : html5 !! "gt;" = Some ">".
Hypothesis html5_quot : html5 !! "quot;" = Some (String html.quot "").
Hypothesis apos_valid_charref : _invalid_charrefs !! 39%N = None.
Hypothesis apos_valid_codepoint : 39%N ∉ _invalid_codepoints.
Hypothesis chr_apos : chr 39 = String html.apos "".

(** On stored children: a concrete element whose only child is the
    string [s] serializes as its tag around [html.escape s], and
    [html.unescape] of that child text is [s]; when the only child
    is [Safe(s)] the child text is [s] itself, unescaped. *)
Theorem to_html_text_child fuel type attrs_ tag s :
  html_name type = Some tag ->
  let plain := instance type [Primitive (PStr s)] attrs_ in
  let safe := instance type [Primitive (PSafe s)] attrs_ in
  (_format_children (default_html_formatter env (to_html env fuel)) plain
   = ret (html.escape s)
   /\ to_html env (S fuel) plain
      = ret (tag_start (format_html_attribute env) tag plain
               +:+ ">" +:+ html.escape s +:+ "</" +:+ tag +:+ ">")
   /\ html.unescape html5 _invalid_charrefs _invalid_codepoints chr (html.escape s) = s)
  /\ (_format_children (default_html_formatter env (to_html env fuel)) safe = ret s
      /\ to_html env (S fuel) safe
         = ret (tag_start (format_html_attribute env) tag safe
                  +:+ ">" +:+ s +:+ "</" +:+ tag +:+ ">")).
Proof.
  intros Htag plain safe.
  assert (Hplain : _format_children (default_html_formatter env (to_html env fuel)) plain
                   = ret (html.escape s)).
  { unfold _format_children. simpl. rewrite ?append_nil_r. reflexivity. }
  assert (Hsafe : _format_children (default_html_formatter env (to_html env fuel)) safe
                  = ret s).
  { unfold _format_children. simpl. rewrite ?append_nil_r. reflexivity. }
  split; [split; [exact Hplain|split]|split; [exact Hsafe|]].
  - rewrite (to_html_concrete fuel plain tag Htag).
    now apply serialize_with_children.
  - now apply unescape_escape.
  - rewrite (to_html_concrete fuel safe tag Htag).
    now apply serialize_with_children.
Qed.

End TextChild.

End ToHtml.

(** ** The resolution loop has no bound *)

Section Resolution.

Context {Float Any : Type}.
Variable env : Env Float Any.

Implicit Types (n d : Element Float Any).

Lemma render_steps_S k n :
  render_steps env (S k) n
  = match render env n with
    | Ok n' => render_steps env k n'
    | Raise e => Raise e
    end.
Proof. reflexivity. Qed.

Lemma resolve_reaches k : forall n d tag,
  render_steps env k n = Ok d ->
  html_name (type_of d) = Some tag ->
  (forall j, j < k ->
     exists dj, render_steps env j n = Ok dj /\ html_name (type_of dj) = None) ->
  forall fuel, resolve env fuel n = if k <=? fuel then ret d else out_of_fuel.
Proof.
  induction k as [|k IH]; intros n d tag Hsteps Htag Hbefore fuel.
  - simpl in Hsteps. injection Hsteps as <-.
    exact (resolve_concrete env fuel n tag Htag).
  - destruct (Hbefore 0) as (d0 & H0 & Habs); [lia|].
    simpl in H0. injection H0 as <-.
    rewrite render_steps_S in Hsteps.
    destruct (render env n) as [n'|e] eqn:Hrender; [|discriminate].
    destruct fuel as [|fuel]; simpl; rewrite Habs; [reflexivity|].
    rewrite Hrender.
    apply (IH n' d tag Hsteps Htag).
    intros j Hj. destruct (Hbefore (S j)) as (dj & Hdj & Hnone); [lia|].
    rewrite render_steps_S, Hrender in Hdj. eauto.
Qed.

Lemma resolve_diverges fuel : forall n,
  (forall k, exists d, render_steps env k n = Ok d /\ html_name (type_of d) = None) ->
  resolve env fuel n = out_of_fuel.
Proof.
  induction fuel as [|fuel IH]; intros n Hchain.
  - destruct (Hchain 0) as (d & H0 & Habs). simpl in H0. injection H0 as <-.
    simpl. rewrite Habs. reflexivity.
  - destruct (Hchain 0) as (d & H0 & Habs). simpl in H0. injection H0 as <-.
    destruct (Hchain 1) as (d1 & H1 & _). rewrite render_steps_S in H1.
    destruct (render env n) as [n'|e] eqn:Hrender; [|discriminate].
    simpl. rewrite Habs, Hrender. apply IH.
    intros k. destruct (Hchain (S k)) as (dk & Hdk & Hnone).
    rewrite render_steps_S, Hrender in Hdk. eauto.
Qed.

(** C5, as the code has it. When the chain of [render] calls from [n]
    first reaches a node with a tag name after [k] calls, the loop
    returns that node, after exactly [k] calls (less fuel than [k]
    does not suffice).  The loop itself has no bound and detects no
    cycle: on a chain whose calls all return and never reach a node
    with a tag name, neither the loop nor [to_html] returns or
    raises, whatever the fuel. *)
Theorem resolve_follows_render_chain n :
  (forall k d tag,
      render_steps env k n = Ok d ->
      html_name (type_of d) = Some tag ->
      (forall j, j < k ->
         exists dj, render_steps env j n = Ok dj /\ html_name (type_of dj) = None) ->
      forall fuel, resolve env fuel n = if k <=? fuel then ret d else out_of_fuel)
  /\ ((forall k, exists d,
          render_steps env k n = Ok d /\ html_name (type_of d) = None) ->
      forall fuel,
        resolve env fuel n = out_of_fuel /\ to_html env fuel n = out_of_fuel).
Proof.
  split.
  - intros k d tag. apply resolve_reaches.
  - intros Hchain fuel. split; [now apply resolve_diverges|].
    destruct fuel as [|fuel]; [reflexivity|].
    simpl. rewrite (resolve_diverges fuel n Hchain). reflexivity.
Qed.

End Resolution.

Lemma render_steps_loop k : render_steps demo.env k demo.loop = Ok demo.loop.
Proof. induction k as [|k IH]; [reflexivity|exact IH]. Qed.

(** C5, witness: the [Form] of the demo program reaches its [form]
    after one [render] call, and [Loop] never reaches anything. *)
Lemma resolve_follows_render_chain_witness :
  resolve demo.env 3 (instance demo.Form [] []) = ret (instance demo.form [] [])
  /\ resolve demo.env 0 (instance demo.Form [] []) = out_of_fuel
  /\ to_html demo.env 7 demo.loop = out_of_fuel.
Proof.
  split; [|split].
  - apply (proj1 (resolve_follows_render_chain demo.env (instance demo.Form [] []))
             1 (instance demo.form [] []) "form"); [reflexivity|reflexivity|].
    intros j Hj. exists (instance demo.Form [] []).
    destruct j as [|j]; [split; reflexivity|lia].
  - apply (proj1 (resolve_follows_render_chain demo.env (instance demo.Form [] []))
             1 (instance demo.form [] []) "form"); [reflexivity|reflexivity|].
    intros j Hj. exists (instance demo.Form [] []).
    destruct j as [|j]; [split; reflexivity|lia].
  - apply (proj2 (resolve_follows_render_chain demo.env demo.loop)).
    intros k. exists demo.loop. split; [apply render_steps_loop|reflexivity].
Defined.

(** C5, counterexample: [Loop] declares neither [html_name] nor
    [render], so [render] returns the node itself, a cycle of length
    one; [to_html] on it neither returns nor raises within any number
    of steps. *)
Lemma loop_never_fails :
  render demo.env demo.loop = Ok demo.loop
  /\ ~ (exists fuel outcome, to_html demo.env fuel demo.loop = Some outcome).
Proof.
  split; [reflexivity|].
  intros (fuel & outcome & H).
  assert (Hnone : to_html demo.env fuel demo.loop = None).
  { destruct fuel as [|fuel]; [reflexivity|].
    simpl to_html.
    rewrite (resolve_diverges demo.env fuel demo.loop); [reflexivity|].
    intros k. exists demo.loop. split; [apply render_steps_loop|reflexivity]. }
  rewrite Hnone in H. discriminate.
Qed.

(** ** The registry, [Safe.parse] and the constructor *)

Section Registry.

Context {Float Any : Type}.
Variable env : Env Float Any.

Implicit Types (registry : gmap string (@Class)) (cls : @Class)
  (construct : @Class -> list (AnyChild Float Any) -> list (string * Any)
               -> M (Element Float Any)).

(** C7. Declaring a class whose name is already a key of the
    registry raises (an [ImportWarning]) and leaves the registry as it
    was: the name still maps to the class registered first. *)
Theorem init_subclass_duplicate registry cls first :
  registry !! __name__ cls = Some first ->
  __init_subclass__ env registry cls
  = (Raise (name_already_used env (__name__ cls)), registry)
  /\ snd (__init_subclass__ env registry cls) !! __name__ cls = Some first.
Proof.
  intros H. unfold __init_subclass__, name_already_used. rewrite H. simpl.
  split; [|exact H]. reflexivity.
Qed.

(** The other branch: a fresh name is registered. *)
Lemma init_subclass_fresh registry cls :
  registry !! __name__ cls = None ->
  __init_subclass__ env registry cls = (Ok tt, <[__name__ cls := cls]> registry).
Proof. intros H. unfold __init_subclass__. rewrite H. reflexivity. Qed.

Lemma parse_loop_passes construct registry before : forall rest acc,
  Forall (passes construct registry) before ->
  exists acc',
    parse_loop env construct registry (before ++ rest) acc
    = parse_loop env construct registry rest acc'.
Proof.
  induction before as [|item before IH]; intros rest acc Hall.
  - exists acc. reflexivity.
  - inversion Hall as [|? ? Hitem Hall']; subst.
    destruct item as [text|tag ch at_]; simpl.
    + apply IH, Hall'.
    + destruct Hitem as (element_type & element & Hreg & Hcons).
      rewrite Hreg, Hcons. simpl. apply IH, Hall'.
Qed.

Lemma parse_loop_unknown_tag construct registry tag ch at_ rest acc :
  registry !! tag = None ->
  parse_loop env construct registry (ParsedElement tag ch at_ :: rest) acc
  = raise (unknown_tag env tag).
Proof.
  intros H. simpl. rewrite H. unfold unknown_tag. reflexivity.
Qed.

Lemma parse_loop_never_returns construct registry tag ch at_ items :
  In (ParsedElement tag ch at_) items ->
  registry !! tag = None ->
  forall acc res, parse_loop env construct registry items acc <> ret res.
Proof.
  intros Hin Hreg.
  induction items as [|item items IH]; intros acc res; [destruct Hin|].
  destruct Hin as [->|Hin].
  - rewrite (parse_loop_unknown_tag _ _ _ _ _ _ _ Hreg). discriminate.
  - destruct item as [text|tag' ch' at']; simpl.
    + apply IH, Hin.
    + destruct (registry !! tag'); [|discriminate].
      destruct (construct c ch' at') as [[element|e]|]; simpl;
        [apply IH, Hin|discriminate|discriminate].
Qed.

(** When the parse of a string contains a tag that is not a key
    of the registry, [Safe.parse] does not return; when the items
    before the first such tag pass (texts, and registered tags whose
    constructors return), it raises the [TypeError] that names the
    tag, and so does the constructor called on that one [Safe]
    string. *)
Theorem Safe_parse_unknown_tag construct registry s before tag ch at_ after :
  parse_elements env s = Ok (before ++ ParsedElement tag ch at_ :: after) ->
  registry !! tag = None ->
  (forall res, Safe_parse env construct registry s <> ret res)
  /\ (Forall (passes construct registry) before ->
      Safe_parse env construct registry s = raise (unknown_tag env tag))
  /\ (forall fuel cls attributes,
        Forall (passes (__init__ env fuel registry) registry) before ->
        validate_attributes env cls attributes = Ok tt ->
        __init__ env (S fuel) registry cls [Primitive (PSafe s)] attributes
        = raise (unknown_tag env tag)).
Proof.
  intros Hparse Hreg.
  assert (Hraise : forall construct',
             Forall (passes construct' registry) before ->
             Safe_parse env construct' registry s = raise (unknown_tag env tag)).
  { intros construct' Hall. unfold Safe_parse. rewrite Hparse. simpl.
    destruct (parse_loop_passes construct' registry before
                (ParsedElement tag ch at_ :: after) [] Hall) as (acc' & ->).
    now apply parse_loop_unknown_tag. }
  split; [|split].
  - intros res. unfold Safe_parse. rewrite Hparse. simpl.
    apply (parse_loop_never_returns construct registry tag ch at_); [|exact Hreg].
    apply in_or_app. right. left. reflexivity.
  - apply Hraise.
  - intros fuel cls attributes Hall Hattrs.
    simpl. rewrite Hattrs. simpl. rewrite (Hraise _ Hall). reflexivity.
Qed.

(** C4. A constructor called on exactly one child that is a [Safe]
    string returns an element just when the attributes validate,
    [Safe.parse] expands the string into children, and these children
    validate: they are what the element stores, and an error of
    their validation is raised with nothing stored.  On any other
    children it returns just when the attributes and the children as
    given validate, and it stores them as given. *)
Theorem init_children_rule fuel registry cls children_ attributes :
  (forall s, children_ = [Primitive (PSafe s)] ->
     (forall self,
        __init__ env (S fuel) registry cls children_ attributes = ret self
        <-> validate_attributes env cls attributes = Ok tt
            /\ exists new_children,
                 Safe_parse env (__init__ env fuel registry) registry s = ret new_children
                 /\ validate_elements env cls attributes new_children = Ok tt
                 /\ self = instance cls new_children attributes)
     /\ (forall new_children e,
           validate_attributes env cls attributes = Ok tt ->
           Safe_parse env (__init__ env fuel registry) registry s = ret new_children ->
           validate_elements env cls attributes new_children = Raise e ->
           __init__ env (S fuel) registry cls children_ attributes = raise e))
  /\ ((forall s, children_ <> [Primitive (PSafe s)]) ->
      (forall self,
         __init__ env (S fuel) registry cls children_ attributes = ret self
         <-> validate_attributes env cls attributes = Ok tt
             /\ validate_elements env cls attributes children_ = Ok tt
             /\ self = instance cls children_ attributes)
      /\ (forall e,
            validate_attributes env cls attributes = Ok tt ->
            validate_elements env cls attributes children_ = Raise e ->
            __init__ env (S fuel) registry cls children_ attributes = raise e)).
Proof.
  split.
  - intros s ->. split.
    + intros self. simpl.
      destruct (validate_attributes env cls attributes) as [[]|e]; simpl.
      * destruct (Safe_parse env (__init__ env fuel registry) registry s)
          as [[new_children|e]|]; simpl.
        -- destruct (validate_elements env cls attributes new_children) as [[]|e]
             eqn:Hval; simpl; split.
           ++ intros [= <-]. split; [reflexivity|]. exists new_children.
              split; [reflexivity|]. split; [exact Hval|reflexivity].
           ++ intros (_ & new' & [= <-] & _ & ->). reflexivity.
           ++ discriminate.
           ++ intros (_ & new' & [= <-] & Hbad & _).
              rewrite Hval in Hbad. discriminate.
        -- split; [discriminate|]. intros (_ & new' & Hbad & _). discriminate.
        -- split; [discriminate|]. intros (_ & new' & Hbad & _). discriminate.
      * split; [discriminate|]. intros (Hbad & _). discriminate.
    + intros new_children e Hattrs Hparse Hval. simpl.
      rewrite Hattrs. simpl. rewrite Hparse. simpl. rewrite Hval. reflexivity.
  - intros Hother.
    assert (Heq : __init__ env (S fuel) registry cls children_ attributes
                  = (let* _ := lift (validate_attributes env cls attributes) in
                     let* _ := lift (validate_elements env cls attributes children_) in
                     ret (instance cls children_ attributes))).
    { simpl. destruct (validate_attributes env cls attributes) as [[]|e]; [|reflexivity].
      simpl.
      destruct children_ as [|[[s| | | |]|] [|]]; try reflexivity.
      exfalso. exact (Hother s eq_refl). }
    rewrite Heq. split.
    + intros self.
      destruct (validate_attributes env cls attributes) as [[]|e]; simpl.
      * destruct (validate_elements env cls attributes children_) as [[]|e]; simpl; split.
        -- intros [= <-]. repeat split; reflexivity.
        -- intros (_ & _ & ->). reflexivity.
        -- discriminate.
        -- intros (_ & Hbad & _). discriminate.
      * split; [discriminate|]. intros (Hbad & _). discriminate.
    + intros e Hattrs Hval. rewrite Hattrs. simpl. rewrite Hval. reflexivity.
Qed.

End Registry.

(** ** The debug serializer, [to_string], and [__format__] *)

Section ToString.

Context {Float Any : Type}.
Variable env : Env Float Any.

Implicit Types (self e : Element Float Any).

Lemma has_children_false self : children self = [] -> has_children self = false.
Proof. unfold has_children. now intros ->. Qed.

Lemma has_children_true self : children self <> [] -> has_children self = true.
Proof. unfold has_children. destruct (children self); [contradiction|reflexivity]. Qed.

Lemma has_attributes_false self : attrs self = [] -> has_attributes self = false.
Proof. unfold has_attributes. now intros ->. Qed.

Lemma has_attributes_true self : attrs self <> [] -> has_attributes self = true.
Proof. unfold has_attributes. destruct (attrs self); [contradiction|reflexivity]. Qed.

Lemma to_string_pretty_unfold _level self :
  to_string env true _level self
  = let indent := indent_at _level in
    let name := __name__ (type_of self) in
    let children_str := String.concat "" (map (pretty_child env _level) (children self)) in
    if has_children self then
      if is_simple self then
        if has_attributes self then
          pretty_head env _level self +:+ ">" +:+ newline +:+ indent +:+ "  " +:+ children_str
            +:+ newline +:+ indent +:+ "</" +:+ name +:+ ">"
        else
          pretty_head env _level self +:+ ">" +:+ children_str +:+ "</" +:+ name +:+ ">"
      else
        pretty_head env _level self +:+ ">" +:+ indent +:+ "  " +:+ children_str
          +:+ newline +:+ indent +:+ "</" +:+ name +:+ ">"
    else pretty_head env _level self +:+ " />".
Proof.
  destruct self as [type ch at_].
  unfold pretty_head, tag_start, line_break, indent_at, pretty_child.
  cbn [to_string type_of children attrs andb].
  destruct (0 <? _level);
    destruct (has_attributes (instance type ch at_));
    destruct (has_children (instance type ch at_));
    destruct (is_simple (instance type ch at_));
    cbv zeta; cbn [andb]; rewrite ?append_assoc; simpl; rewrite ?append_assoc;
    reflexivity.
Qed.

(** C8, as the code has it.  In pretty mode: a node without children
    is the self-closing tag under the name of its class, whatever
    [always_pair] is; the only child of a simple node without
    attributes is written inline between the tags; the only child of
    a simple node with attributes is written on a line of its own at
    [_level + 1]; in any other node the opening tag is followed, on
    its line, by the indentation of [_level + 1] (that of the node and
    two spaces), then by the children one after the other, then by a
    line break, the indentation of the node and the closing tag.  A
    child that is an element begins with a line break and the
    indentation of [_level + 1], so it starts a line of its own; a
    primitive child is its [str] with nothing added before or after
    it, so it continues the line of what precedes it. *)
Theorem to_string_pretty_layout _level self :
  let name := __name__ (type_of self) in
  let indent := indent_at _level in
  (children self = [] ->
     to_string env true _level self = pretty_head env _level self +:+ " />")
  /\ (forall p, children self = [Primitive p] -> attrs self = [] ->
        to_string env true _level self
        = pretty_head env _level self +:+ ">" +:+ str_primitive env p
            +:+ "</" +:+ name +:+ ">")
  /\ (forall p, children self = [Primitive p] -> attrs self <> [] ->
        to_string env true _level self
        = pretty_head env _level self +:+ ">" +:+ newline +:+ indent +:+ "  "
            +:+ str_primitive env p +:+ newline +:+ indent +:+ "</" +:+ name +:+ ">")
  /\ (children self <> [] -> is_simple self = false ->
        to_string env true _level self
        = pretty_head env _level self +:+ ">" +:+ indent +:+ "  "
            +:+ String.concat "" (map (pretty_child env _level) (children self))
            +:+ newline +:+ indent +:+ "</" +:+ name +:+ ">")
  /\ (forall e, exists rest,
        pretty_child env _level (Node e)
        = newline +:+ indent_at (S _level) +:+ "<" +:+ __name__ (type_of e) +:+ rest)
  /\ (forall p, pretty_child env _level (Primitive p) = str_primitive env p).
Proof.
  intros name indent. rewrite to_string_pretty_unfold. cbv zeta.
  repeat split.
  - intros Hch. now rewrite (has_children_false _ Hch).
  - intros p Hch Hat.
    rewrite has_children_true by (rewrite Hch; discriminate).
    unfold is_simple. rewrite Hch. simpl.
    rewrite (has_attributes_false _ Hat). reflexivity.
  - intros p Hch Hat.
    rewrite has_children_true by (rewrite Hch; discriminate).
    unfold is_simple. rewrite Hch. simpl.
    rewrite (has_attributes_true _ Hat). reflexivity.
  - intros Hch Hsimple. rewrite (has_children_true _ Hch), Hsimple. reflexivity.
  - intros e. unfold pretty_child. rewrite to_string_pretty_unfold.
    unfold pretty_head, line_break, tag_start. cbv zeta. simpl (0 <? S _level).
    destruct (has_children e), (is_simple e), (has_attributes e);
      rewrite ?append_assoc; eexists; simpl; try reflexivity.
Qed.

Lemma check_textual_primitives self rest :
  Forall (fun child => is_primitive child = true) rest ->
  check_textual self rest = Ok tt.
Proof.
  induction 1 as [|child rest Hchild _ IH]; [reflexivity|].
  destruct child as [p|e]; [exact IH|discriminate].
Qed.

Lemma check_textual_node self rest e :
  In (Node e) rest ->
  exists e', In (Node e') rest /\ check_textual self rest = Raise (not_textual self e').
Proof.
  induction rest as [|child rest IH]; intros Hin; [destruct Hin|].
  destruct child as [p|e0].
  - destruct Hin as [Hbad|Hin]; [discriminate|].
    destruct (IH Hin) as (e' & Hin' & Hraise).
    exists e'. split; [now right|exact Hraise].
  - exists e0. split; [now left|]. unfold not_textual. simpl.
    rewrite ?append_assoc. reflexivity.
Qed.

(** C10. [__format__] raises a [TypeError] as soon as a child is
    not a primitive (the error names the first such child), and
    returns [to_string(pretty=False)] when all children are
    primitives. *)
Theorem format_textual self spec :
  (forall e, In (Node e) (children self) ->
     exists e', In (Node e') (children self)
                /\ __format__ env self spec = Raise (not_textual self e'))
  /\ (Forall (fun child => is_primitive child = true) (children self) ->
      __format__ env self spec = Ok (to_string env false 0 self)).
Proof.
  split.
  - intros e Hin.
    destruct (check_textual_node self (children self) e Hin) as (e' & Hin' & Hraise).
    exists e'. split; [exact Hin'|]. unfold __format__. now rewrite Hraise.
  - intros Hall. unfold __format__.
    now rewrite (check_textual_primitives self _ Hall).
Qed.

End ToString.

(** ** The properties on the demo program *)

(** On the demo program: a [b] with an attribute around a text with the five
    special characters. *)
Lemma to_html_text_child_witness :
  let s := "a<b & 'c'" +:+ String html.quot ">" in
  let escaped := "a&lt;b &amp; &#x27;c&#x27;&quot;&gt;" in
  to_html demo.env 1 (instance demo.b [Primitive (PStr s)] [("id", "x")])
  = ret ("<b id=" +:+ demo.quoted "x" +:+ ">" +:+ escaped +:+ "</b>")
  /\ html.unescape demo.html5 demo._invalid_charrefs demo._invalid_codepoints demo.chr
       escaped = s
  /\ to_html demo.env 1 (instance demo.b [Primitive (PSafe s)] [("id", "x")])
     = ret ("<b id=" +:+ demo.quoted "x" +:+ ">" +:+ s +:+ "</b>").
Proof.
  intros s escaped.
  assert (Hcodepoint : 39%N ∉ demo._invalid_codepoints) by (vm_compute; set_solver).
  destruct (to_html_text_child demo.env demo.html5 demo._invalid_charrefs
              demo._invalid_codepoints demo.chr
              eq_refl eq_refl eq_refl eq_refl eq_refl Hcodepoint eq_refl
              0 demo.b [("id", "x")] "b" s eq_refl)
    as ((_ & Hplain & Hback) & (_ & Hsafe)).
  split; [exact Hplain|split; [exact Hback|exact Hsafe]].
Defined.

(** C2, witness: [br] closes itself, [div] (always a pair) does not. *)
Lemma to_html_childless_witness :
  to_html demo.env 1 (instance demo.br [] []) = ret "<br />"
  /\ to_html demo.env 1 (instance demo.div [] [("id", "x")])
     = ret ("<div id=" +:+ demo.quoted "x" +:+ "></div>").
Proof.
  split.
  - exact (to_html_childless demo.env 0 demo.br [] "br" eq_refl).
  - exact (to_html_childless demo.env 0 demo.div [("id", "x")] "div" eq_refl).
Defined.

(** C3, witness: a [div] with a child. *)
Lemma resolve_concrete_noop_witness :
  let n := instance demo.div [Primitive (PStr "x")] [] in
  render demo.env n = Ok n
  /\ resolve demo.env 0 n = ret n
  /\ to_html demo.env 1 n = ret "<div>x</div>".
Proof.
  intros n.
  destruct (resolve_concrete_noop demo.env n "div" eq_refl)
    as (_ & Hrender & Hzero & Hfuel).
  split; [exact (Hrender eq_refl)|split; [exact Hzero|]].
  destruct (Hfuel 0) as (_ & Hhtml). rewrite Hhtml. reflexivity.
Defined.

(** C7, witness: a second class named [div]. *)
Lemma init_subclass_duplicate_witness :
  let again := {| __name__ := "div"; html_name := Some "section"; always_pair := false |} in
  fst (__init_subclass__ demo.env demo.registry again)
  = Raise (ImportWarning
             ("Element or component with the name 'div' is already used. "
                +:+ "This means that parsing PyMX elements might not work correctly "
                +:+ "when rendered."))
  /\ snd (__init_subclass__ demo.env demo.registry again) !! "div" = Some demo.div.
Proof.
  intros again.
  destruct (init_subclass_duplicate demo.env demo.registry again demo.div eq_refl)
    as (Hraise & Hkept).
  split; [rewrite Hraise; reflexivity|exact Hkept].
Defined.

(** On the demo program: the scenario of the specification, [Bogus] not being
    registered. *)
Lemma Safe_parse_unknown_tag_witness :
  __init__ demo.env 2 demo.registry demo.div
    [Primitive (PSafe "<Bogus>x</Bogus>")] []
  = raise (TypeError
             "Element or component 'Bogus' not found, maybe you forgot to import it?").
Proof.
  destruct (Safe_parse_unknown_tag demo.env (__init__ demo.env 1 demo.registry)
              demo.registry "<Bogus>x</Bogus>" [] "Bogus" [Primitive (PSafe "x")] [] []
              eq_refl eq_refl) as (_ & _ & Hinit).
  exact (Hinit 1 demo.div [] (List.Forall_nil _) eq_refl).
Defined.

(** C4, witness: the scenario of the specification; the [Safe] string
    becomes three children, the middle one a [b]. *)
Lemma init_children_rule_witness :
  __init__ demo.env 3 demo.registry demo.div
    [Primitive (PSafe "Hello, how <b>are you</b>?")] []
  = ret (instance demo.div
           [Primitive (PSafe "Hello, how ");
            Node (instance demo.b [Primitive (PSafe "are you")] []);
            Primitive (PSafe "?")] [])
  /\ __init__ demo.env 1 demo.registry demo.div
       [Primitive (PStr "<b>x</b>"); Primitive (PSafe "y")] []
     = ret (instance demo.div [Primitive (PStr "<b>x</b>"); Primitive (PSafe "y")] []).
Proof.
  split.
  - destruct (init_children_rule demo.env 2 demo.registry demo.div
                [Primitive (PSafe "Hello, how <b>are you</b>?")] []) as (Hsafe & _).
    destruct (Hsafe _ eq_refl) as (Hiff & _).
    apply Hiff. split; [reflexivity|].
    eexists. split; [reflexivity|]. split; reflexivity.
  - destruct (init_children_rule demo.env 0 demo.registry demo.div
                [Primitive (PStr "<b>x</b>"); Primitive (PSafe "y")] []) as (_ & Hother).
    destruct (Hother ltac:(intros s; discriminate)) as (Hiff & _).
    apply Hiff. repeat split; reflexivity.
Defined.

(** C8, witness: the four layouts, on a [div] without children one
    level down, a [b] around a text without and with an attribute, and
    a [div] around a [b] and a text. *)
Lemma to_string_pretty_layout_witness :
  to_string demo.env true 1 (instance demo.div [] []) = newline +:+ "  <div />"
  /\ to_string demo.env true 0 (instance demo.b [Primitive (PStr "x")] []) = "<b>x</b>"
  /\ to_string demo.env true 0 (instance demo.b [Primitive (PStr "x")] [("id", "i")])
     = "<b id=" +:+ demo.quoted "i" +:+ ">" +:+ newline +:+ "  x" +:+ newline +:+ "</b>"
  /\ to_string demo.env true 0
       (instance demo.div
          [Node (instance demo.b [Primitive (PStr "x")] []); Primitive (PStr "t")] [])
     = "<div>  " +:+ newline +:+ "  <b>x</b>t" +:+ newline +:+ "</div>".
Proof.
  split; [|split; [|split]].
  - destruct (to_string_pretty_layout demo.env 1 (instance demo.div [] []))
      as (Hempty & _).
    rewrite (Hempty eq_refl). reflexivity.
  - destruct (to_string_pretty_layout demo.env 0
                (instance demo.b [Primitive (PStr "x")] []))
      as (_ & Hinline & _).
    rewrite (Hinline (PStr "x") eq_refl eq_refl). reflexivity.
  - destruct (to_string_pretty_layout demo.env 0
                (instance demo.b [Primitive (PStr "x")] [("id", "i")]))
      as (_ & _ & Hblock & _).
    rewrite (Hblock (PStr "x") eq_refl ltac:(discriminate)). reflexivity.
  - destruct (to_string_pretty_layout demo.env 0
                (instance demo.div
                   [Node (instance demo.b [Primitive (PStr "x")] []);
                    Primitive (PStr "t")] []))
      as (_ & _ & _ & Hmany & _).
    rewrite (Hmany ltac:(discriminate) eq_refl). reflexivity.
Defined.

(** C8, counterexample: a [div] with the two texts [a] and [b] is not
    simple, and its pretty form has two lines, the opening tag
    followed by both texts and the closing tag: neither text stands on
    a line of its own at level one. *)
Lemma two_texts_share_a_line :
  is_simple demo.two_texts = false
  /\ lines (to_string demo.env true 0 demo.two_texts) = ["<div>  ab"; "</div>"]
  /\ ~ In (indent_at 1 +:+ "a") (lines (to_string demo.env true 0 demo.two_texts))
  /\ ~ In (indent_at 1 +:+ "b") (lines (to_string demo.env true 0 demo.two_texts)).
Proof.
  split; [reflexivity|]. split; [reflexivity|].
  split; intros [H|[H|[]]]; discriminate H.
Qed.

(** C10, witness: a [b] around a text formats, a [div] around a [b]
    does not. *)
Lemma format_textual_witness :
  __format__ demo.env (instance demo.b [Primitive (PStr "x"); Primitive (PInt 7)] []) ""
  = Ok "<b>x7</b>"
  /\ __format__ demo.env
       (instance demo.div [Primitive (PStr "x"); Node (instance demo.b [] [])] []) ""
     = Raise (TypeError
                ("Only elements with textual children can be used within an f-string, "
                   +:+ "<div /> contains <b />.")).
Proof.
  split.
  - destruct (format_textual demo.env
                (instance demo.b [Primitive (PStr "x"); Primitive (PInt 7)] []) "")
      as (_ & Hall).
    rewrite Hall; [reflexivity|].
    repeat constructor.
  - destruct (format_textual demo.env
                (instance demo.div [Primitive (PStr "x"); Node (instance demo.b [] [])] [])
                "") as (Hnode & _).
    destruct (Hnode (instance demo.b [] []) ltac:(right; left; reflexivity))
      as (e' & Hin & Hraise).
    rewrite Hraise.
    destruct Hin as [Hbad|[[= <-]|[]]]; [discriminate|reflexivity].
Defined.

(** ** Equality of themes *)

(** [Theme.__eq__] itself compares the names and nothing else. *)
Lemma Theme___eq___by_name (self : themes.Theme) (other : themes.object) :
  themes.Theme___eq__ self other = true
  <-> exists o, other = themes.a_theme o /\ themes.name self = themes.name o.
Proof.
  destruct other as [o|]; simpl.
  - rewrite String.eqb_eq. split.
    + intros H. exists o. auto.
    + intros (o' & [= <-] & H). exact H.
  - split; [discriminate|]. intros (o & Hbad & _). discriminate.
Qed.

(** [==] on two theme instances compares the classes and every field. *)
Lemma eq_op_by_fields (t1 t2 : themes.Theme) :
  themes.eq_op t1 t2
  = themes.same_class (themes.__class__ t1) (themes.__class__ t2)
    && (themes.Fonts___eq__ (themes.fonts t1) (themes.fonts t2)
        && themes.Colors___eq__ (themes.colors t1) (themes.colors t2)
        && String.eqb (themes.name t1) (themes.name t2)).
Proof.
  unfold themes.eq_op, themes.dataclass___eq__.
  destruct (themes.__class__ t1), (themes.__class__ t2); reflexivity.
Qed.

(** C9, on the code: two [DarkTheme] instances of the same name whose
    colors differ are equal for [Theme.__eq__] and different for [==],
    which runs the [__eq__] that [@dataclass] wrote into [DarkTheme];
    a [DarkTheme] and a [LightTheme] of the same name and the same
    fields are different for [==] too. *)
Theorem dataclass_eq_shadows_Theme_eq :
  let t1 := themes.new_DarkTheme themes.default_Colors in
  let t2 := themes.new_DarkTheme
              {| themes.primary := "#000000"; themes.secondary := "#6c757d";
                 themes.success := "#198754"; themes.info := "#0dcaf0";
                 themes.warning := "#ffc107"; themes.danger := "#dc3545";
                 themes.dark := "#313539"; themes.light := "#f8f9fa";
                 themes.white := "#fff"; themes.black := "#222" |} in
  let t3 := {| themes.__class__ := themes.LightTheme;
               themes.fonts := themes.default_Fonts;
               themes.colors := themes.default_Colors;
               themes.name := "dark" |} in
  (themes.name t1 = themes.name t2
   /\ themes.Theme___eq__ t1 (themes.a_theme t2) = true
   /\ themes.eq_op t1 t2 = false)
  /\ (themes.name t1 = themes.name t3
      /\ themes.Theme___eq__ t1 (themes.a_theme t3) = true
      /\ themes.eq_op t1 t3 = false).
Proof. repeat split; reflexivity. Qed.

(** * Further properties of the code *)

(** ** Induction on element trees *)

Section TreeInduction.

Context {Float Any : Type}.

Variable P : Element Float Any -> Prop.

Hypothesis step : forall type children_ attrs_,
  Forall (fun child => match child with Node e => P e | Primitive _ => True end)
         children_ ->
  P (instance type children_ attrs_).

Lemma Element_tree_ind (self : Element Float Any) : P self.
Proof.
  revert self. fix IH 1. intros [type children_ attrs_]. apply step.
  induction children_ as [|child rest IHrest]; constructor.
  - destruct child as [p|e]; [exact I|apply IH].
  - exact IHrest.
Qed.

End TreeInduction.

Lemma concat_empty_app (l1 l2 : list string) :
  String.concat "" (l1 ++ l2) = String.concat "" l1 +:+ String.concat "" l2.
Proof.
  induction l1 as [|x l1 IH]; [reflexivity|].
  destruct l1 as [|y l1].
  - simpl. destruct l2 as [|z l2]; [now rewrite append_nil_r|reflexivity].
  - change (String.concat "" ((x :: y :: l1) ++ l2))
      with (x +:+ "" +:+ String.concat "" ((y :: l1) ++ l2)).
    rewrite IH. simpl. now rewrite append_assoc.
Qed.

Lemma concat_empty_cons (x : string) (l : list string) :
  String.concat "" (x :: l) = x +:+ String.concat "" l.
Proof. exact (concat_empty_app [x] l). Qed.

(** ** [text] *)

Section Text.

Context {Float Any : Type}.
Variable env : Env Float Any.

Implicit Types (self e : Element Float Any) (type : @Class).

(** X1. The text of an element is the text of its children in order,
    whatever its class and attributes: the text over two runs of
    children is the text of the first followed by that of the second,
    and wrapping an element in another leaves its text unchanged. *)
Theorem text_app type attrs_ type1 attrs1 type2 attrs2 children1 children2 e :
  text env (instance type (children1 ++ children2) attrs_)
  = text env (instance type1 children1 attrs1) +:+ text env (instance type2 children2 attrs2)
  /\ text env (instance type [Node e] attrs_) = text env e.
Proof.
  split; [|reflexivity].
  simpl. rewrite map_app. apply concat_empty_app.
Qed.

(** X2. The text of an element is the concatenation of [str] of the
    primitive leaves of its tree, from left to right; tags, names and
    attributes leave no trace in it. *)
Theorem text_leaves self :
  text env self = String.concat "" (map (str_primitive env) (leaves self)).
Proof.
  induction self as [type children_ attrs_ IH] using Element_tree_ind.
  simpl. induction IH as [|child rest Hchild _ IHrest]; [reflexivity|].
  cbn [map List.concat]. rewrite map_app, concat_empty_app, concat_empty_cons.
  rewrite IHrest. f_equal.
  destruct child as [p|e]; [reflexivity|exact Hchild].
Qed.

End Text.

(** ** [to_string] without indentation, and [__format__] *)

Section PlainString.

Context {Float Any : Type}.
Variable env : Env Float Any.

Implicit Types (self e : Element Float Any).

Lemma to_string_plain_unfold _level self :
  to_string env false _level self
  = tag_start (format_attribute env) (__name__ (type_of self)) self
      +:+ (if has_children self
           then ">" +:+ String.concat ""
                          (map (fun child =>
                                  match child with
                                  | Primitive p => str_primitive env p
                                  | Node e => to_string env false (S _level) e
                                  end)
                               (children self))
                    +:+ "</" +:+ __name__ (type_of self) +:+ ">"
           else " />").
Proof.
  destruct self as [type ch at_]. unfold tag_start.
  cbn [to_string type_of children attrs].
  destruct (0 <? _level);
    destruct (has_attributes (instance type ch at_));
    destruct (has_children (instance type ch at_));
    cbv zeta; cbn [andb]; simpl; rewrite ?append_assoc; reflexivity.
Qed.

Lemma map_ext_Forall_children {B} (f g : AnyChild Float Any -> B) l :
  Forall (fun child => f child = g child) l -> map f l = map g l.
Proof. induction 1 as [|child rest H _ IH]; simpl; [reflexivity|now rewrite H, IH]. Qed.

(** X3. Without [pretty], [to_string] ignores the level it is called
    at: the text of a whole tree is the same at every level, so an
    element reads the same on its own and inside another. *)
Theorem to_string_plain_level self :
  forall _level, to_string env false _level self = to_string env false 0 self.
Proof.
  induction self as [type children_ attrs_ IH] using Element_tree_ind.
  intros _level. rewrite (to_string_plain_unfold _level), (to_string_plain_unfold 0).
  destruct (has_children (instance type children_ attrs_)); [|reflexivity].
  do 4 f_equal. cbn [children].
  apply map_ext_Forall_children.
  induction IH as [|child rest Hchild _ IHrest]; constructor; [|exact IHrest].
  destruct child as [p|e]; [reflexivity|].
  rewrite (Hchild (S _level)), (Hchild 1). reflexivity.
Qed.

(** X4. For an element whose children are all primitives,
    [__format__] returns the opening tag with the attributes, the
    [text] of the element and the closing tag, under the name of the
    class; with no children it returns the self-closing tag. *)
Theorem format_is_text self spec :
  Forall (fun child => is_primitive child = true) (children self) ->
  __format__ env self spec
  = Ok (tag_start (format_attribute env) (__name__ (type_of self)) self
          +:+ (if has_children self
               then ">" +:+ text env self +:+ "</" +:+ __name__ (type_of self) +:+ ">"
               else " />")).
Proof.
  intros Hall. unfold __format__.
  rewrite (check_textual_primitives self _ Hall).
  rewrite to_string_plain_unfold. do 2 f_equal.
  destruct (has_children self); [|reflexivity].
  do 2 f_equal. destruct self as [type ch at_]. cbn [children text] in *.
  f_equal. apply map_ext_Forall_children.
  induction Hall as [|child rest Hchild _ IH]; constructor; [|exact IH].
  destruct child as [p|e]; [reflexivity|discriminate].
Qed.

End PlainString.

(** ** [to_html] on trees and on components *)

Section HtmlTrees.

Context {Float Any : Type}.
Variable env : Env Float Any.

Implicit Types (n dom d : Element Float Any) (r : result string).

Lemma resolve_mono fuel : forall n (res : result (Element Float Any)),
  resolve env fuel n = Some res -> resolve env (S fuel) n = Some res.
Proof.
  induction fuel as [|fuel IH]; intros n res H.
  - simpl in *. destruct (html_name (type_of n)); [exact H|discriminate].
  - cbn [resolve] in *.
    destruct (html_name (type_of n)); [exact H|].
    destruct (render env n) as [n'|e]; [|exact H].
    apply IH, H.
Qed.

Lemma for_each_mono {A B} (f g : A -> M B) l :
  (forall a res, In a l -> f a = Some res -> g a = Some res) ->
  forall res, for_each f l = Some res -> for_each g l = Some res.
Proof.
  induction l as [|a l IH]; intros Hfg res H; [exact H|].
  simpl in *.
  destruct (f a) as [[b|e]|] eqn:Hfa; [| |discriminate].
  - rewrite (Hfg a (Ok b) (or_introl eq_refl) Hfa). simpl in *.
    destruct (for_each f l) as [[bs|e]|] eqn:Hrest; [| |discriminate].
    + rewrite (IH (fun a' res' Hin => Hfg a' res' (or_intror Hin)) _ eq_refl). exact H.
    + rewrite (IH (fun a' res' Hin => Hfg a' res' (or_intror Hin)) _ eq_refl). exact H.
  - rewrite (Hfg a (Raise e) (or_introl eq_refl) Hfa). exact H.
Qed.

Lemma for_each_returns {A B} (f : A -> M B) l bs :
  Forall2 (fun a b => f a = ret b) l bs -> for_each f l = ret bs.
Proof.
  induction 1 as [|a b l bs Hab _ IH]; [reflexivity|].
  simpl. rewrite Hab. simpl. rewrite IH. reflexivity.
Qed.

Lemma for_each_first_raise {A B} (f : A -> M B) before a after bs e :
  Forall2 (fun a b => f a = ret b) before bs ->
  f a = raise e ->
  for_each f (before ++ a :: after) = raise e.
Proof.
  induction 1 as [|a' b l bs' Hab _ IH]; intros Hraise; simpl.
  - rewrite Hraise. reflexivity.
  - rewrite Hab. simpl. rewrite (IH Hraise). reflexivity.
Qed.

Lemma serialize_mono (f g : Element Float Any -> M string) dom :
  (forall e r, f e = Some r -> g e = Some r) ->
  forall r, serialize env f dom = Some r -> serialize env g dom = Some r.
Proof.
  intros Hfg r. unfold serialize.
  destruct (get_html_name dom) as [[tag|e]|]; simpl; [|trivial|trivial].
  destruct (has_children dom || always_pair (type_of dom)); [|trivial].
  unfold _format_children.
  destruct (for_each (default_html_formatter env f) (children dom)) as [res|] eqn:Hf;
    [|discriminate].
  rewrite (for_each_mono (default_html_formatter env f) (default_html_formatter env g)
             (children dom)) with (res := res); [trivial| |exact Hf].
  intros [p|e] res' _; simpl; [trivial|apply Hfg].
Qed.

Lemma to_html_mono fuel : forall n r,
  to_html env fuel n = Some r -> to_html env (S fuel) n = Some r.
Proof.
  induction fuel as [|fuel IH]; intros n r H; [discriminate|].
  cbn [to_html] in *.
  destruct (resolve env fuel n) as [[dom|e]|] eqn:Hres; [| |discriminate].
  - rewrite (resolve_mono fuel n _ Hres). simpl in *.
    apply (serialize_mono (to_html env fuel)); [exact IH|exact H].
  - rewrite (resolve_mono fuel n _ Hres). exact H.
Qed.

Lemma to_html_le fuel fuel' n r :
  fuel <= fuel' -> to_html env fuel n = Some r -> to_html env fuel' n = Some r.
Proof.
  induction 1 as [|fuel' _ IH]; [trivial|]. intros H. apply to_html_mono, IH, H.
Qed.

(** X7. A component serializes as what its [render] returns: for a
    node without [html_name] whose [render] returns [n'], [to_html]
    ends with an outcome on the node exactly when it ends with that
    outcome on [n']. *)
Theorem to_html_of_component n n' :
  html_name (type_of n) = None ->
  render env n = Ok n' ->
  forall r, html_of env n r <-> html_of env n' r.
Proof.
  intros Habs Hrender r. split; intros (fuel & H).
  - destruct fuel as [|[|fuel]]; [discriminate| |].
    + simpl in H. rewrite Habs in H. discriminate.
    + exists (S (S fuel)).
      cbn [to_html resolve] in H. rewrite Habs, Hrender in H.
      cbn [to_html].
      destruct (resolve env fuel n') as [[dom|e]|] eqn:Hres; [| |discriminate].
      * rewrite (resolve_mono fuel n' _ Hres). exact H.
      * rewrite (resolve_mono fuel n' _ Hres). exact H.
  - destruct fuel as [|fuel]; [discriminate|].
    exists (S (S fuel)).
    cbn [to_html resolve]. rewrite Habs, Hrender.
    cbn [to_html] in H.
    destruct (resolve env fuel n') as [[dom|e]|] eqn:Hres; [| |discriminate].
    + simpl in *.
      apply (serialize_mono (to_html env fuel)); [apply to_html_mono|exact H].
    + exact H.
Qed.

(** X8. When the [render] of a node without [html_name] raises,
    [to_html] raises the same exception (two steps of fuel suffice,
    whatever the children are). *)
Theorem to_html_render_raises n e :
  html_name (type_of n) = None ->
  render env n = Raise e ->
  forall fuel, 2 <= fuel -> to_html env fuel n = raise e.
Proof.
  intros Habs Hrender fuel Hfuel.
  destruct fuel as [|[|fuel]]; [lia|lia|].
  cbn [to_html resolve]. rewrite Habs, Hrender. reflexivity.
Qed.

(** X9. [to_html] of a node with a tag name and children is the tag
    around the serializations of the children, in order; when a child
    raises and the children before it serialize, [to_html] raises that
    exception. *)
Theorem to_html_children fuel dom tag :
  html_name (type_of dom) = Some tag ->
  children dom <> [] ->
  (forall outs,
      Forall2 (fun child out =>
                 default_html_formatter env (to_html env fuel) child = ret out)
              (children dom) outs ->
      to_html env (S fuel) dom
      = ret (tag_start (format_html_attribute env) tag dom
               +:+ ">" +:+ String.concat "" outs +:+ "</" +:+ tag +:+ ">"))
  /\ (forall before child after outs e,
        children dom = before ++ child :: after ->
        Forall2 (fun child out =>
                   default_html_formatter env (to_html env fuel) child = ret out)
                before outs ->
        default_html_formatter env (to_html env fuel) child = raise e ->
        to_html env (S fuel) dom = raise e).
Proof.
  intros Htag Hch.
  rewrite (to_html_concrete env fuel dom tag Htag).
  split.
  - intros outs Houts.
    apply serialize_with_children; [exact Htag|now apply has_children_true|].
    unfold _format_children. rewrite (for_each_returns _ _ _ Houts). reflexivity.
  - intros before child after outs e Hsplit Hbefore Hraise.
    unfold serialize, get_html_name. rewrite Htag. simpl.
    rewrite (has_children_true dom Hch). simpl.
    unfold _format_children. rewrite Hsplit.
    rewrite (for_each_first_raise _ _ _ after _ _ Hbefore Hraise). reflexivity.
Qed.

End HtmlTrees.

(** ** What [default_html_formatter] does to a plain string *)

Lemma contains_app (a : ascii) (s t : string) :
  html.contains a (s +:+ t) = html.contains a s || html.contains a t.
Proof.
  induction s as [|b s IH]; simpl; [reflexivity|].
  rewrite IH. now rewrite orb_assoc.
Qed.

Lemma escape_char_no_markup (c a : ascii) :
  In c ["<"%char; ">"%char; html.quot; html.apos] ->
  html.contains c (html.escape_char a) = false.
Proof.
  intros Hc. unfold html.escape_char.
  destruct (Ascii.eqb a "&") eqn:E1.
  { destruct Hc as [<-|[<-|[<-|[<-|[]]]]]; reflexivity. }
  destruct (Ascii.eqb a "<") eqn:E2.
  { destruct Hc as [<-|[<-|[<-|[<-|[]]]]]; reflexivity. }
  destruct (Ascii.eqb a ">") eqn:E3.
  { destruct Hc as [<-|[<-|[<-|[<-|[]]]]]; reflexivity. }
  destruct (Ascii.eqb a html.quot) eqn:E4.
  { destruct Hc as [<-|[<-|[<-|[<-|[]]]]]; reflexivity. }
  destruct (Ascii.eqb a html.apos) eqn:E5.
  { destruct Hc as [<-|[<-|[<-|[<-|[]]]]]; reflexivity. }
  simpl. rewrite orb_false_r.
  destruct Hc as [<-|[<-|[<-|[<-|[]]]]]; assumption.
Qed.

Section PlainText.

Context {Float Any : Type}.
Variable env : Env Float Any.

(** X10. The text [to_html] writes for a child that is a plain string
    holds none of the characters [<], [>], the double quote and the
    single quote, whatever the string: such a child cannot open or
    close a tag or an attribute value. *)
Theorem formatted_text_has_no_markup
    (to_html_ : Element Float Any -> M string) (s : string) (c : ascii) :
  In c ["<"%char; ">"%char; html.quot; html.apos] ->
  exists out,
    default_html_formatter env to_html_ (Primitive (PStr s)) = ret out
    /\ html.contains c out = false.
Proof.
  intros Hc. exists (html.escape s). split; [reflexivity|].
  induction s as [|a s IH]; [reflexivity|].
  rewrite escape_cons, contains_app, IH, (escape_char_no_markup c a Hc). reflexivity.
Qed.

(** X11. Two plain strings that [default_html_formatter] writes as
    the same text are the same string: escaping loses nothing. *)
Theorem formatted_text_injective
    (to_html_ : Element Float Any -> M string) (s1 s2 : string) :
  default_html_formatter env to_html_ (Primitive (PStr s1))
  = default_html_formatter env to_html_ (Primitive (PStr s2)) ->
  s1 = s2.
Proof.
  simpl. intros [= H].
  assert (Hcodepoint : 39%N ∉ demo._invalid_codepoints) by (vm_compute; set_solver).
  rewrite <- (unescape_escape demo.html5 demo._invalid_charrefs demo._invalid_codepoints
                demo.chr eq_refl eq_refl eq_refl eq_refl eq_refl Hcodepoint eq_refl s1).
  rewrite H.
  exact (unescape_escape demo.html5 demo._invalid_charrefs demo._invalid_codepoints
           demo.chr eq_refl eq_refl eq_refl eq_refl eq_refl Hcodepoint eq_refl s2).
Qed.

End PlainText.

(** ** More on [Safe.parse], the constructor and the registry *)

Section Construction.

Context {Float Any : Type}.
Variable env : Env Float Any.

Implicit Types (registry : gmap string (@Class)) (cls : @Class)
  (construct : @Class -> list (AnyChild Float Any) -> list (string * Any)
               -> M (Element Float Any)).

Lemma parse_loop_returns construct registry items : forall acc res,
  parse_loop env construct registry items acc = ret res
  <-> exists new, res = acc ++ new /\ Forall2 (parsed_as construct registry) items new.
Proof.
  induction items as [|item items IH]; intros acc res.
  - simpl. split.
    + intros [= <-]. exists []. split; [now rewrite app_nil_r|constructor].
    + intros (new & -> & Hnew). inversion Hnew. now rewrite app_nil_r.
  - destruct item as [text_|tag ch at_]; simpl.
    + rewrite IH. split.
      * intros (new & -> & Hnew). exists (Primitive (PSafe text_) :: new).
        split; [now rewrite <- app_assoc|]. constructor; [reflexivity|exact Hnew].
      * intros (new & -> & Hnew).
        inversion Hnew as [|? child ? new' Hchild Hnew']; subst.
        destruct child as [[s'| | | |]|e]; try contradiction.
        simpl in Hchild. subst s'.
        exists new'. split; [now rewrite <- app_assoc|exact Hnew'].
    + destruct (registry !! tag) as [element_type|] eqn:Hreg.
      * destruct (construct element_type ch at_) as [[element|e]|] eqn:Hcons; simpl.
        -- rewrite IH. split.
           ++ intros (new & -> & Hnew). exists (Node element :: new).
              split; [now rewrite <- app_assoc|].
              constructor; [|exact Hnew]. exists element_type. now split.
           ++ intros (new & -> & Hnew).
              inversion Hnew as [|? child ? new' Hchild Hnew']; subst.
              destruct child as [p|e']; [contradiction|].
              destruct Hchild as (element_type' & Hreg' & Hcons').
              rewrite Hreg in Hreg'. injection Hreg' as <-.
              rewrite Hcons in Hcons'. injection Hcons' as <-.
              exists new'. split; [now rewrite <- app_assoc|exact Hnew'].
        -- split; [discriminate|]. intros (new & _ & Hnew).
           inversion Hnew as [|? child ? new' Hchild Hnew']; subst.
           destruct child as [p|e']; [contradiction|].
           destruct Hchild as (element_type' & Hreg' & Hcons').
           rewrite Hreg in Hreg'. injection Hreg' as <-.
           rewrite Hcons in Hcons'. discriminate.
        -- split; [discriminate|]. intros (new & _ & Hnew).
           inversion Hnew as [|? child ? new' Hchild Hnew']; subst.
           destruct child as [p|e']; [contradiction|].
           destruct Hchild as (element_type' & Hreg' & Hcons').
           rewrite Hreg in Hreg'. injection Hreg' as <-.
           rewrite Hcons in Hcons'. discriminate.
      * split; [discriminate|]. intros (new & _ & Hnew).
        inversion Hnew as [|? child ? new' Hchild Hnew']; subst.
        destruct child as [p|e']; [contradiction|].
        destruct Hchild as (element_type' & Hreg' & _).
        rewrite Hreg in Hreg'. discriminate.
Qed.

Lemma Safe_parse_returns_iff construct registry s res :
  Safe_parse env construct registry s = ret res
  <-> exists items,
        parse_elements env s = Ok items
        /\ Forall2 (parsed_as construct registry) items res.
Proof.
  unfold Safe_parse.
  destruct (parse_elements env s) as [items|e]; simpl.
  - rewrite parse_loop_returns. split.
    + intros (new & -> & Hnew). exists items. now split.
    + intros (items' & [= <-] & Hnew). exists res. now split.
  - split; [discriminate|]. intros (items & Hbad & _). discriminate.
Qed.

(** X12. [Safe.parse] returns children exactly when [parse_elements]
    returns and every item has its child: one child per item, in the
    order of the items, a text as the [Safe] string of that text and a
    tag as the element that the class registered under the tag
    constructs from the item's children and attributes. *)
Theorem Safe_parse_returns construct registry s res :
  Safe_parse env construct registry s = ret res
  <-> exists items,
        parse_elements env s = Ok items
        /\ Forall2 (parsed_as construct registry) items res.
Proof. apply Safe_parse_returns_iff. Qed.

Lemma init_unfold fuel registry cls children_ attributes :
  __init__ env (S fuel) registry cls children_ attributes
  = (let* _ := lift (validate_attributes env cls attributes) in
     match sole_safe children_ with
     | Some s =>
         let* new_children :=
           Safe_parse env (__init__ env fuel registry) registry s in
         let* _ := lift (validate_elements env cls attributes new_children) in
         ret (instance cls new_children attributes)
     | None =>
         let* _ := lift (validate_elements env cls attributes children_) in
         ret (instance cls children_ attributes)
     end).
Proof.
  cbn [__init__].
  destruct (validate_attributes env cls attributes) as [[]|e]; [|reflexivity].
  destruct children_ as [|[[s| | | |]|] [|]]; reflexivity.
Qed.

Lemma init_validated fuel registry cls children_ attributes self :
  __init__ env fuel registry cls children_ attributes = ret self ->
  type_of self = cls
  /\ attrs self = attributes
  /\ validate_attributes env cls attributes = Ok tt
  /\ validate_elements env cls attributes (children self) = Ok tt.
Proof.
  destruct fuel as [|fuel]; [discriminate|].
  rewrite init_unfold.
  destruct (validate_attributes env cls attributes) as [[]|e]; [|discriminate].
  simpl. destruct (sole_safe children_) as [s|].
  - destruct (Safe_parse env (__init__ env fuel registry) registry s)
      as [[new_children|e]|]; [|discriminate|discriminate].
    simpl.
    destruct (validate_elements env cls attributes new_children) as [[]|e] eqn:Hval;
      [|discriminate].
    intros [= <-]. repeat split. exact Hval.
  - destruct (validate_elements env cls attributes children_) as [[]|e] eqn:Hval;
      [|discriminate].
    intros [= <-]. repeat split. exact Hval.
Qed.

(** X13. An element that the constructor returns is of the class it
    was called on, holds the attributes it was given, and both
    validations accepted it: [validate_attributes] its attributes and
    [validate_elements] the children it stores. *)
Theorem init_stores_validated fuel registry cls children_ attributes self :
  __init__ env fuel registry cls children_ attributes = ret self ->
  type_of self = cls
  /\ attrs self = attributes
  /\ validate_attributes env cls attributes = Ok tt
  /\ validate_elements env cls attributes (children self) = Ok tt.
Proof. apply init_validated. Qed.

(** X14. The children that [Safe.parse] returns are [Safe] strings
    and elements, never plain strings or other primitives, and each
    element is of a class of the registry and was accepted by both
    validations. *)
Theorem Safe_parse_children fuel registry s res :
  Safe_parse env (__init__ env fuel registry) registry s = ret res ->
  Forall (fun child =>
            match child with
            | Primitive (PSafe _) => True
            | Primitive _ => False
            | Node e =>
                (exists tag, registry !! tag = Some (type_of e))
                /\ validate_attributes env (type_of e) (attrs e) = Ok tt
                /\ validate_elements env (type_of e) (attrs e) (children e) = Ok tt
            end) res.
Proof.
  intros H. apply Safe_parse_returns_iff in H as (items & _ & Hitems).
  induction Hitems as [|item child items res Hchild _ IH]; constructor; [|exact IH].
  destruct item as [text_|tag ch at_], child as [[s'| | | |]|e]; try contradiction.
  - exact I.
  - destruct Hchild as (element_type & Hreg & Hcons).
    destruct (init_validated _ _ _ _ _ _ Hcons) as (Htype & Hattrs & Hva & Hve).
    subst element_type at_. split; [eauto|]. now split.
Qed.

Lemma parsed_as_weaken construct construct' registry registry' item child :
  registry ⊆ registry' ->
  (forall cls ch at_ e, construct cls ch at_ = ret e -> construct' cls ch at_ = ret e) ->
  parsed_as construct registry item child ->
  parsed_as construct' registry' item child.
Proof.
  intros Hsub Hcons.
  destruct item as [text_|tag ch at_], child as [[s'| | | |]|e]; simpl; trivial.
  intros (element_type & Hreg & He). exists element_type.
  split; [exact (lookup_weaken _ _ _ _ Hreg Hsub)|apply Hcons, He].
Qed.

(** X17. What constructs with a registry constructs the same with
    every larger one: after further classes are declared, the
    constructor (and the [Safe.parse] inside it) returns the same
    element for the same arguments. *)
Theorem init_registry_grows registry registry' :
  registry ⊆ registry' ->
  forall fuel cls children_ attributes self,
    __init__ env fuel registry cls children_ attributes = ret self ->
    __init__ env fuel registry' cls children_ attributes = ret self.
Proof.
  intros Hsub. induction fuel as [|fuel IH]; intros cls children_ attributes self;
    [discriminate|].
  rewrite !init_unfold.
  destruct (validate_attributes env cls attributes) as [[]|e]; [|discriminate].
  simpl. destruct (sole_safe children_) as [s|]; [|trivial].
  destruct (Safe_parse env (__init__ env fuel registry) registry s)
    as [[new_children|e]|] eqn:Hparse; [|discriminate|discriminate].
  apply Safe_parse_returns_iff in Hparse as (items & Hitems & Hall).
  assert (Hparse' : Safe_parse env (__init__ env fuel registry') registry' s
                    = ret new_children).
  { apply Safe_parse_returns_iff. exists items. split; [exact Hitems|].
    eapply Forall2_impl; [exact Hall|].
    intros item child. apply parsed_as_weaken; [exact Hsub|]. intros ? ? ? ?. apply IH. }
  rewrite Hparse'. trivial.
Qed.

(** X15. [__init_subclass__] never removes or changes an entry of the
    registry, whether it raises or not, and it keeps every key equal
    to the name of the class the key maps to. *)
Theorem init_subclass_keeps_registry registry cls :
  registry ⊆ snd (__init_subclass__ env registry cls)
  /\ (well_named registry -> well_named (snd (__init_subclass__ env registry cls))).
Proof.
  unfold __init_subclass__.
  destruct (registry !! __name__ cls) as [first|] eqn:Hreg; simpl.
  - split; [reflexivity|trivial].
  - split; [now apply insert_subseteq|].
    intros Hnamed key cls' Hlookup.
    destruct (decide (key = __name__ cls)) as [->|Hne].
    + rewrite lookup_insert_eq in Hlookup. now injection Hlookup as <-.
    + rewrite lookup_insert_ne in Hlookup by congruence. exact (Hnamed _ _ Hlookup).
Qed.

(** X16. A declaration succeeds exactly when the name of the class is
    not yet a key of the registry; the class is then what its name
    maps to, and declaring a class of that name again raises. *)
Theorem init_subclass_registers registry cls :
  (fst (__init_subclass__ env registry cls) = Ok tt
   <-> registry !! __name__ cls = None)
  /\ (registry !! __name__ cls = None ->
      let registry' := snd (__init_subclass__ env registry cls) in
      registry' !! __name__ cls = Some cls
      /\ forall again,
           __name__ again = __name__ cls ->
           __init_subclass__ env registry' again
           = (Raise (name_already_used env (__name__ cls)), registry')).
Proof.
  split.
  - unfold __init_subclass__.
    destruct (registry !! __name__ cls); simpl; split; try discriminate; reflexivity.
  - intros Hfresh registry'.
    assert (Hlookup : registry' !! __name__ cls = Some cls).
    { subst registry'. rewrite (init_subclass_fresh env registry cls Hfresh).
      simpl. apply lookup_insert_eq. }
    split; [exact Hlookup|].
    intros again Hname. unfold __init_subclass__, name_already_used.
    rewrite Hname, Hlookup. reflexivity.
Qed.

End Construction.

(** ** [attrs_for] *)

Section AttrsFor.

Context {Float Any : Type}.
Variable get_element_attributes : @Class -> gset string.

Implicit Types (self : Element Float Any) (cls : @Class).

Lemma NoDup_map_fst_filter {A B} (f : A * B -> bool) (l : list (A * B)) :
  List.NoDup (map fst l) -> List.NoDup (map fst (List.filter f l)).
Proof.
  induction l as [|x l IH]; simpl; intros Hnd; [constructor|].
  inversion Hnd as [|? ? Hnotin Hnd']; subst.
  destruct (f x); simpl; [|exact (IH Hnd')].
  constructor; [|exact (IH Hnd')].
  intros Hin. apply Hnotin.
  apply in_map_iff in Hin as (y & Hy & Hin). apply in_map_iff.
  exists y. split; [exact Hy|]. apply filter_In in Hin. tauto.
Qed.

Lemma filter_filter_same {A} (f : A -> bool) (l : list A) :
  List.filter f (List.filter f l) = List.filter f l.
Proof.
  induction l as [|x l IH]; simpl; [reflexivity|].
  destruct (f x) eqn:Hx; simpl; rewrite ?Hx, IH; reflexivity.
Qed.

(** X19. [attrs_for(cls)] holds exactly the attributes of the element
    whose names [cls] declares, with their values; their names stay
    distinct; and asking again on the result changes nothing. *)
Theorem attrs_for_declared self cls :
  (forall key value,
      In (key, value) (attrs_for get_element_attributes self cls)
      <-> In (key, value) (attrs self) /\ key ∈ get_element_attributes cls)
  /\ (List.NoDup (map fst (attrs self)) ->
      List.NoDup (map fst (attrs_for get_element_attributes self cls)))
  /\ (forall type (children_ : list (AnyChild Float Any)),
        attrs_for get_element_attributes
          (instance type children_ (attrs_for get_element_attributes self cls)) cls
        = attrs_for get_element_attributes self cls).
Proof.
  unfold attrs_for. split; [|split].
  - intros key value. rewrite filter_In. simpl.
    rewrite bool_decide_eq_true. reflexivity.
  - apply NoDup_map_fst_filter.
  - intros type children_. cbn [attrs]. apply filter_filter_same.
Qed.

End AttrsFor.

(** ** [==] on themes *)

Lemma Colors___eq___eq (a b : themes.Colors) :
  themes.Colors___eq__ a b = true <-> a = b.
Proof.
  destruct a, b. unfold themes.Colors___eq__. simpl.
  rewrite !andb_true_iff, !String.eqb_eq. split.
  - intros (((((((((-> & ->) & ->) & ->) & ->) & ->) & ->) & ->) & ->) & ->).
    reflexivity.
  - intros [= -> -> -> -> -> -> -> -> -> ->]. repeat split.
Qed.

Lemma Fonts___eq___eq (a b : themes.Fonts) :
  themes.Fonts___eq__ a b = true <-> a = b.
Proof.
  destruct a as [[h1 p1 m1] [s1 md1 l1]], b as [[h2 p2 m2] [s2 md2 l2]].
  unfold themes.Fonts___eq__, themes.FontFamilies___eq__, themes.FontSizes___eq__.
  simpl. rewrite !andb_true_iff, !String.eqb_eq, !Z.eqb_eq. split.
  - intros (((-> & ->) & ->) & ((-> & ->) & ->)). reflexivity.
  - intros [= -> -> -> -> -> ->]. repeat split.
Qed.

(** X18. On two instances of [DarkTheme] and [LightTheme], [==] holds
    exactly when they are of the same class and all their fields
    (fonts, colors and name) are equal; themes that are equal for [==]
    are equal for [Theme.__eq__], and have the same name. *)
Theorem eq_op_is_field_equality (t1 t2 : themes.Theme) :
  (themes.eq_op t1 t2 = true <-> t1 = t2)
  /\ (themes.eq_op t1 t2 = true -> themes.Theme___eq__ t1 (themes.a_theme t2) = true).
Proof.
  assert (Hiff : themes.eq_op t1 t2 = true <-> t1 = t2).
  { rewrite eq_op_by_fields.
    destruct t1 as [c1 f1 k1 n1], t2 as [c2 f2 k2 n2]. simpl.
    rewrite !andb_true_iff, Fonts___eq___eq, Colors___eq___eq, String.eqb_eq. split.
    - intros (Hclass & (-> & ->) & ->).
      destruct c1, c2; try discriminate; reflexivity.
    - intros [= -> -> -> ->]. destruct c2; repeat split. }
  split; [exact Hiff|].
  intros H. apply Hiff in H. subst t2. simpl. apply String.eqb_refl.
Qed.

(** ** The further properties on the two programs *)

(** X4, witness. *)
Lemma format_is_text_witness :
  __format__ demo.env
    (instance demo.b [Primitive (PStr "x"); Primitive (PBool true)] [("id", "i")]) ""
  = Ok ("<b id=" +:+ demo.quoted "i" +:+ ">xTrue</b>").
Proof.
  rewrite (format_is_text demo.env
             (instance demo.b [Primitive (PStr "x"); Primitive (PBool true)] [("id", "i")])
             ""); [reflexivity|].
  repeat constructor.
Defined.

(** X7, witness: a [Form] serializes as its [form]. *)
Lemma to_html_of_component_witness :
  html_of demo.env (instance demo.Form [Primitive (PStr "x")] []) (Ok "<form>x</form>").
Proof.
  apply (to_html_of_component demo.env
           (instance demo.Form [Primitive (PStr "x")] [])
           (instance demo.form [Primitive (PStr "x")] []) eq_refl eq_refl).
  exists 1. reflexivity.
Defined.

(** X8, witness. *)
Lemma to_html_render_raises_witness :
  to_html sample.env 2 (instance sample.Anchor [] [("id", "x")])
  = raise (Exception "KeyError" "'target'").
Proof.
  apply (to_html_render_raises sample.env (instance sample.Anchor [] [("id", "x")])
           (Exception "KeyError" "'target'") eq_refl eq_refl).
  lia.
Defined.

(** X9, witness: the page, and a page whose second child raises. *)
Lemma to_html_children_witness :
  to_html demo.env 2 sample.page
  = ret ("<div id=" +:+ demo.quoted "p" +:+ ">1 &lt; 2<b>x7</b><br /></div>")
  /\ to_html sample.env 3
       (instance demo.div
          [Primitive (PStr "x"); Node (instance sample.Anchor [] []);
           Primitive (PStr "y")] [])
     = raise (Exception "KeyError" "'target'").
Proof.
  split.
  - destruct (to_html_children demo.env 1 sample.page "div" eq_refl ltac:(discriminate))
      as (Hret & _).
    rewrite (Hret ["1 &lt; 2"; "<b>x7</b>"; "<br />"]); [reflexivity|].
    repeat constructor.
  - destruct (to_html_children sample.env 2
                (instance demo.div
                   [Primitive (PStr "x"); Node (instance sample.Anchor [] []);
                    Primitive (PStr "y")] [])
                "div" eq_refl ltac:(discriminate)) as (_ & Hraise).
    apply (Hraise [Primitive (PStr "x")] (Node (instance sample.Anchor [] []))
             [Primitive (PStr "y")] ["x"] (Exception "KeyError" "'target'"));
      [reflexivity|repeat constructor|reflexivity].
Defined.

(** X10, witness. *)
Lemma formatted_text_has_no_markup_witness :
  exists out,
    default_html_formatter demo.env (to_html demo.env 0)
      (Primitive (PStr "<script>alert('x')</script>")) = ret out
    /\ html.contains "<" out = false.
Proof.
  apply (formatted_text_has_no_markup demo.env (to_html demo.env 0)
           "<script>alert('x')</script>" "<").
  left. reflexivity.
Defined.

(** X11, witness. *)
Lemma formatted_text_injective_witness : "a&b" = "a&b".
Proof.
  apply (formatted_text_injective demo.env (to_html demo.env 0) "a&b" "a&b").
  reflexivity.
Defined.

(** X13, witness. *)
Lemma init_stores_validated_witness :
  validate_elements demo.env demo.div []
    [Primitive (PSafe "Hello, how ");
     Node (instance demo.b [Primitive (PSafe "are you")] []);
     Primitive (PSafe "?")] = Ok tt.
Proof.
  destruct (init_stores_validated demo.env 3 demo.registry demo.div
              [Primitive (PSafe "Hello, how <b>are you</b>?")] []
              (instance demo.div
                 [Primitive (PSafe "Hello, how ");
                  Node (instance demo.b [Primitive (PSafe "are you")] []);
                  Primitive (PSafe "?")] [])
              eq_refl) as (_ & _ & _ & Hval).
  exact Hval.
Defined.

(** X14, witness. *)
Lemma Safe_parse_children_witness :
  Forall (fun child =>
            match child with
            | Primitive (PSafe _) => True
            | Primitive _ => False
            | Node e =>
                (exists tag, demo.registry !! tag = Some (type_of e))
                /\ validate_attributes demo.env (type_of e) (attrs e) = Ok tt
                /\ validate_elements demo.env (type_of e) (attrs e) (children e) = Ok tt
            end)
         [Primitive (PSafe "Hello, how ");
          Node (instance demo.b [Primitive (PSafe "are you")] []);
          Primitive (PSafe "?")].
Proof.
  apply (Safe_parse_children demo.env 2 demo.registry "Hello, how <b>are you</b>?").
  reflexivity.
Defined.

(** X17, witness: the registry with one more class. *)
Lemma init_registry_grows_witness :
  __init__ demo.env 3 (<["a" := sample.a]> demo.registry) demo.div
    [Primitive (PSafe "Hello, how <b>are you</b>?")] []
  = ret (instance demo.div
           [Primitive (PSafe "Hello, how ");
            Node (instance demo.b [Primitive (PSafe "are you")] []);
            Primitive (PSafe "?")] []).
Proof.
  apply (init_registry_grows demo.env demo.registry (<["a" := sample.a]> demo.registry)).
  - apply insert_subseteq. reflexivity.
  - reflexivity.
Defined.

(** ** A string as the only child, through the constructor *)

Section SoleStringChild.

Context {Float Any : Type}.
Variable env : Env Float Any.

Variable html5 : gmap string string.
Variable _invalid_charrefs : gmap N string.
Variable _invalid_codepoints : gset N.
Variable chr : N -> string.

Hypothesis html5_amp : html5 !! "amp;" = Some "&".
Hypothesis html5_lt : html5 !! "lt;" = Some "<".
Hypothesis html5_gt : html5 !! "gt;" = Some ">".
Hypothesis html5_quot : html5 !! "quot;" = Some (String html.quot "").
Hypothesis apos_valid_charref : _invalid_charrefs !! 39%N = None.
Hypothesis apos_valid_codepoint : 39%N ∉ _invalid_codepoints.
Hypothesis chr_apos : chr 39 = String html.apos "".





End SoleStringChild.



(** ** The first item of a parse that fails *)

Section FirstFailure.

Context {Float Any : Type}.
Variable env : Env Float Any.

Implicit Types (registry : gmap string (@Class)) (cls : @Class)
  (construct : @Class -> list (AnyChild Float Any) -> list (string * Any)
               -> M (Element Float Any)).

Lemma parse_loop_constructor_fails construct registry before tag ch at_ after cls acc :
  Forall (passes construct registry) before ->
  registry !! tag = Some cls ->
  (forall e, construct cls ch at_ = raise e ->
     parse_loop env construct registry (before ++ ParsedElement tag ch at_ :: after) acc
     = raise e)
  /\ (construct cls ch at_ = out_of_fuel ->
      parse_loop env construct registry (before ++ ParsedElement tag ch at_ :: after) acc
      = out_of_fuel).
Proof.
  intros Hall Hreg.
  destruct (parse_loop_passes env construct registry before
              (ParsedElement tag ch at_ :: after) acc Hall) as (acc' & ->).
  simpl. rewrite Hreg. split; [intros e H|intros H]; rewrite H; reflexivity.
Qed.

Lemma first_item_that_fails construct registry items :
  Forall (registered registry) items ->
  Forall (passes construct registry) items
  \/ exists b1 tag ch at_ b2 cls,
       items = b1 ++ ParsedElement tag ch at_ :: b2
       /\ Forall (passes construct registry) b1
       /\ registry !! tag = Some cls
       /\ ((exists e, construct cls ch at_ = raise e)
           \/ construct cls ch at_ = out_of_fuel).
Proof.
  induction 1 as [|item items Hitem _ IH]; [left; constructor|].
  assert (Hcons : forall b1 tag ch at_ b2 cls,
             passes construct registry item ->
             items = b1 ++ ParsedElement tag ch at_ :: b2 ->
             Forall (passes construct registry) b1 ->
             item :: items = (item :: b1) ++ ParsedElement tag ch at_ :: b2
             /\ Forall (passes construct registry) (item :: b1)).
  { intros b1 tag ch at_ b2 cls Hp -> Hb1. split; [reflexivity|now constructor]. }
  destruct item as [text_|tag ch at_].
  - destruct IH as [Hall|(b1 & tag & ch & at_ & b2 & cls & Heq & Hb1 & Hreg & Hfail)].
    + left. constructor; [exact I|exact Hall].
    + right. exists (ParsedText text_ :: b1), tag, ch, at_, b2, cls.
      destruct (Hcons b1 tag ch at_ b2 cls I Heq Hb1) as (Heq' & Hb1').
      repeat split; assumption.
  - destruct Hitem as (cls & Hreg).
    destruct (construct cls ch at_) as [[element|e]|] eqn:Hconstruct.
    + assert (Hp : passes construct registry (ParsedElement tag ch at_))
        by (exists cls, element; now split).
      destruct IH as [Hall|(b1 & tag' & ch' & at' & b2 & cls' & Heq & Hb1 & Hreg' & Hfail)].
      * left. now constructor.
      * right. exists (ParsedElement tag ch at_ :: b1), tag', ch', at', b2, cls'.
        destruct (Hcons b1 tag' ch' at' b2 cls' Hp Heq Hb1) as (Heq' & Hb1').
        repeat split; assumption.
    + right. exists [], tag, ch, at_, items, cls.
      repeat split; [constructor|exact Hreg|]. left. now exists e.
    + right. exists [], tag, ch, at_, items, cls.
      repeat split; [constructor|exact Hreg|]. now right.
Qed.

(** C6, as the code has it.  Let the parse of a string hold a tag
    that is not a key of the registry.  When the items before it pass
    (texts, and registered tags whose constructors return),
    [Safe.parse] raises the [TypeError] that names the tag, and so
    does the constructor called on the string as its only [Safe]
    child.  When the constructor of a registered tag before it raises
    (the items before that one passing), [Safe.parse] raises that
    exception instead.  There is no third outcome for the first
    unregistered tag of a parse, short of a constructor that does not
    end: [Safe.parse] never returns children. *)
Theorem Safe_parse_first_failure construct registry s before tag ch at_ after :
  parse_elements env s = Ok (before ++ ParsedElement tag ch at_ :: after) ->
  registry !! tag = None ->
  (Forall (passes construct registry) before ->
     Safe_parse env construct registry s = raise (unknown_tag env tag))
  /\ (forall fuel cls attributes,
        Forall (passes (__init__ env fuel registry) registry) before ->
        validate_attributes env cls attributes = Ok tt ->
        __init__ env (S fuel) registry cls [Primitive (PSafe s)] attributes
        = raise (unknown_tag env tag))
  /\ (forall b1 tag' ch' at' b2 cls e,
        before = b1 ++ ParsedElement tag' ch' at' :: b2 ->
        Forall (passes construct registry) b1 ->
        registry !! tag' = Some cls ->
        construct cls ch' at' = raise e ->
        Safe_parse env construct registry s = raise e)
  /\ (Forall (registered registry) before ->
      Safe_parse env construct registry s = raise (unknown_tag env tag)
      \/ exists b1 tag' ch' at' b2 cls,
           before = b1 ++ ParsedElement tag' ch' at' :: b2
           /\ Forall (passes construct registry) b1
           /\ registry !! tag' = Some cls
           /\ ((exists e, construct cls ch' at' = raise e
                          /\ Safe_parse env construct registry s = raise e)
               \/ (construct cls ch' at' = out_of_fuel
                   /\ Safe_parse env construct registry s = out_of_fuel))).
Proof.
  intros Hparse Hreg.
  assert (Hunknown : forall construct',
             Forall (passes construct' registry) before ->
             Safe_parse env construct' registry s = raise (unknown_tag env tag)).
  { intros construct' Hall. unfold Safe_parse. rewrite Hparse. simpl.
    destruct (parse_loop_passes env construct' registry before
                (ParsedElement tag ch at_ :: after) [] Hall) as (acc' & ->).
    now apply parse_loop_unknown_tag. }
  assert (Hearlier : forall b1 tag' ch' at' b2 cls,
             before = b1 ++ ParsedElement tag' ch' at' :: b2 ->
             Forall (passes construct registry) b1 ->
             registry !! tag' = Some cls ->
             (forall e, construct cls ch' at' = raise e ->
                Safe_parse env construct registry s = raise e)
             /\ (construct cls ch' at' = out_of_fuel ->
                 Safe_parse env construct registry s = out_of_fuel)).
  { intros b1 tag' ch' at' b2 cls -> Hb1 Hreg'.
    unfold Safe_parse. rewrite Hparse. simpl. rewrite <- app_assoc. simpl.
    exact (parse_loop_constructor_fails construct registry b1 tag' ch' at'
             (b2 ++ ParsedElement tag ch at_ :: after) cls [] Hb1 Hreg'). }
  split; [apply Hunknown|]. split; [|split].
  - intros fuel cls attributes Hall Hattrs.
    rewrite init_unfold. cbn [sole_safe]. rewrite Hattrs. simpl.
    rewrite (Hunknown _ Hall). reflexivity.
  - intros b1 tag' ch' at' b2 cls e Heq Hb1 Hreg' Hraise.
    exact (proj1 (Hearlier b1 tag' ch' at' b2 cls Heq Hb1 Hreg') e Hraise).
  - intros Hregistered.
    destruct (first_item_that_fails construct registry before Hregistered)
      as [Hall|(b1 & tag' & ch' & at' & b2 & cls & Heq & Hb1 & Hreg' & Hfail)].
    + left. now apply Hunknown.
    + right. exists b1, tag', ch', at', b2, cls.
      destruct (Hearlier b1 tag' ch' at' b2 cls Heq Hb1 Hreg') as (Hraise & Hfuel).
      repeat split; try assumption.
      destruct Hfail as [(e & He)|Hnone].
      * left. exists e. split; [exact He|exact (Hraise e He)].
      * right. split; [exact Hnone|exact (Hfuel Hnone)].
Qed.

End FirstFailure.

(** C6, witness: [Bogus] alone raises the error that names it; after
    a [br] whose children are refused, the refusal is what is
    raised. *)
Lemma Safe_parse_first_failure_witness :
  Safe_parse demo.env (__init__ demo.env 1 demo.registry) demo.registry
    "<Bogus>x</Bogus>"
  = raise (TypeError
             "Element or component 'Bogus' not found, maybe you forgot to import it?")
  /\ Safe_parse strict.env (__init__ strict.env 1 demo.registry) demo.registry
       strict.br_then_Bogus
     = raise strict.bad_children.
Proof.
  split.
  - destruct (Safe_parse_first_failure demo.env (__init__ demo.env 1 demo.registry)
                demo.registry "<Bogus>x</Bogus>" [] "Bogus" [Primitive (PSafe "x")] [] []
                eq_refl eq_refl) as (Hunknown & _).
    exact (Hunknown (List.Forall_nil _)).
  - destruct (Safe_parse_first_failure strict.env (__init__ strict.env 1 demo.registry)
                demo.registry strict.br_then_Bogus
                [ParsedElement "br" [Primitive (PStr "x")] []]
                "Bogus" [Primitive (PStr "y")] [] []
                eq_refl eq_refl) as (_ & _ & Hearlier & _).
    exact (Hearlier [] "br" [Primitive (PStr "x")] [] [] demo.br strict.bad_children
             eq_refl (List.Forall_nil _) eq_refl eq_refl).
Defined.

(** C6, counterexample: the parse holds the unregistered [Bogus], but
    the [br] before it has a child that [validate_elements] refuses;
    [Safe.parse], and the constructor called on the string, raise the
    refusal and not the error for [Bogus]. *)
Lemma earlier_tag_raises_first :
  (forall fuel,
      Safe_parse strict.env (__init__ strict.env (S fuel) demo.registry) demo.registry
        strict.br_then_Bogus
      = raise strict.bad_children)
  /\ (forall fuel,
        __init__ strict.env (S (S fuel)) demo.registry demo.div
          [Primitive (PSafe strict.br_then_Bogus)] []
        = raise strict.bad_children)
  /\ demo.registry !! "Bogus" = None
  /\ strict.bad_children <> unknown_tag strict.env "Bogus".
Proof.
  assert (H : forall fuel,
             Safe_parse strict.env (__init__ strict.env (S fuel) demo.registry)
               demo.registry strict.br_then_Bogus
             = raise strict.bad_children).
  { intros fuel. reflexivity. }
  split; [exact H|]. split; [|split; [reflexivity|discriminate]].
  intros fuel. rewrite init_unfold. cbn [sole_safe].
  change (validate_attributes strict.env demo.div []) with (@Ok unit tt).
  cbn [lift bind]. rewrite H. reflexivity.
Qed.
